(** * Pix2Pix_Project/trainer.py: the train / test / export driver

    The script is sequential orchestration over an external model object,
    data loaders, the file system and the console.  It is embedded as a
    program in a small trace-and-exception monad: every call the script
    makes into code it does not own is one entry of the trace, tagged with
    the line of [trainer.py] that makes it; an exception raised by such a
    call (or by the script's own arithmetic and name lookups) ends the run,
    since the script has no [try] statement. *)

From Stdlib Require Import String Ascii DecimalString.
From Stdlib Require Import ZArith QArith_base Bool Arith Lia List SpecFloat.
Import ListNotations.
Local Open Scope Z_scope.

(** ** Python built-ins used by the script *)

Section Builtins.
Local Open Scope string_scope.

(** [str(n)] for an [int]. *)
Definition str (n : Z) : string := NilZero.string_of_int (Z.to_int n).

Definition startswith_sep (s : string) : bool :=
  match s with
  | String c _ => Ascii.eqb c "/"
  | EmptyString => false
  end.

Fixpoint endswith_sep (s : string) : bool :=
  match s with
  | EmptyString => false
  | String c EmptyString => Ascii.eqb c "/"
  | String _ rest => endswith_sep rest
  end.

(** [os.path.join(a, b)] with two arguments, as [posixpath] defines it:
    an absolute [b] discards [a]; otherwise the parts are glued with
    exactly one separator. *)
Definition os_path_join (a b : string) : string :=
  if startswith_sep b then b
  else if orb (String.eqb a "") (endswith_sep a) then a ++ b
  else a ++ "/" ++ b.

(** Python's [float] is an IEEE 754 double, given here by the standard
    library's specification of binary64 (53 bits of mantissa, infinities
    at exponent 1024).  [float(n)] and [n / 2] on an [int] are the doubles
    nearest to [n] and to [n/2], ties to even; where no double is near
    enough the rounding gives an infinity and Python raises
    [OverflowError]. *)
Definition int_to_float (n : Z) : spec_float := binary_normalize 53 1024 n 0 false.

Definition truediv_2 (n : Z) : spec_float := binary_normalize 53 1024 n (-1) false.

Definition is_finite (x : spec_float) : bool :=
  match x with
  | S754_zero _ | S754_finite _ _ _ => true
  | S754_infinity _ | S754_nan => false
  end.

(** The number a finite double stands for. *)
Definition float_value (x : spec_float) : option Q :=
  match x with
  | S754_zero _ => Some (0 # 1)
  | S754_finite s m e =>
      Some (Qmake ((if s then Zneg m else Zpos m) * 2 ^ Z.max e 0)
                  (Z.to_pos (2 ^ Z.max (- e) 0)))
  | S754_infinity _ | S754_nan => None
  end.

(** [range(n)]: [0, 1, ..., n-1], empty when [n <= 0]. *)
Definition range (n : Z) : list Z := map Z.of_nat (seq 0 (Z.to_nat n)).

End Builtins.

(** ** Configuration: the constants at the top of the script *)

Record Config := {
  TRAIN : bool;
  TEST : bool;
  TEST_SAMPLE : Z;
  WRITE_LOGS : bool;
  SAVE_CKPTS : bool;
  SAVE_IMG_CKPT : bool;
  EXPORT_MODEL : bool;
  MODEL_NAME : string;
  BATCH_SIZE : Z;
  EPOCHS : Z;
  PRINT_FREQ : Z;
  LOG_FREQ : Z;
  CKPT_FREQ : Z
}.

Section Paths.
Local Open Scope string_scope.

Definition CKPT_DIR (cfg : Config) : string := os_path_join "checkpoints" (MODEL_NAME cfg).
Definition LOG_DIR (cfg : Config) : string := "runs/" ++ MODEL_NAME cfg.
Definition TEST_DIR (cfg : Config) : string := "test/" ++ MODEL_NAME cfg.

(** The paths the script builds for the image of an epoch (lines 122 and
    138), for the image of a test sample (line 162) and for the exported
    model (line 180). *)
Definition epoch_image (cfg : Config) (epoch : Z) : string :=
  os_path_join (TEST_DIR cfg) ("epoch_" ++ str epoch ++ ".jpg").
Definition test_image (cfg : Config) (i : Z) : string :=
  os_path_join (TEST_DIR cfg) ("test_" ++ str i ++ ".jpg").
Definition export_path (cfg : Config) : string :=
  os_path_join "exported" (MODEL_NAME cfg ++ ".onnx").

(** The values the repository ships with (lines 22-53). *)
Definition shipped : Config := {|
  TRAIN := true; TEST := true; TEST_SAMPLE := 5; WRITE_LOGS := true;
  SAVE_CKPTS := true; SAVE_IMG_CKPT := true; EXPORT_MODEL := true;
  MODEL_NAME := "pix2pix_run_1";
  BATCH_SIZE := 1; EPOCHS := 10;
  PRINT_FREQ := 100; LOG_FREQ := 100; CKPT_FREQ := 2 |}.

End Paths.

(** ** Traces *)

(** Exceptions that can end a run.  [Delegated k] is whatever the call at
    trace position [k] raised; the other three are raised by the
    interpreter on the script's own expressions. *)
Inductive Exn :=
| Delegated (k : nat)
| NameError (name : string)
| ZeroDivisionError
| OverflowError
| KeyError (key : string).

Inductive Outcome (A : Type) :=
| Ret (a : A)
| Raise (e : Exn).
Arguments Ret {A} a.
Arguments Raise {A} e.

Inductive Ctl (S : Type) :=
| Continue (s : S)
| Break (s : S).
Arguments Continue {S} s.
Arguments Break {S} s.

Section Trainer.

(** A batch as the data loader yields it, and a loss scalar. *)
Context {Data Loss : Type}.

(** What [print] is given.  The elapsed-time fields are left out. *)
Inductive Msg :=
| StepLog (total_iters epoch : Z) (G_GAN G_L1 D_real D_fake : Loss)
| SavingEpoch (epoch total_iters : Z)
| Literal (s : string)
| EndOfEpoch (epoch epochs : Z).

(** One constructor per external operation, with the arguments the script
    passes.  [for_epoch e] is not a call: it records the [for] statement of
    line 78 binding [epoch] to [e]. *)
Inductive Event :=
| os_path_isdir (path : string)
| os_makedirs (path : string)
| SummaryWriter (log_dir : string)
| torch_cuda_is_available
| torch_device (name : string)
| ImageFolderLoader (root phase : string) (flip : option bool)
| DataLoader (phase : string) (batch_size : Z) (shuffle : bool) (num_workers : Z)
| Pix2PixModel (ckpt_dir name : string) (is_train : bool)
    (n_epochs n_epochs_decay : spec_float)
| model_setup
| model_eval
| model_load_networks (epoch : Z)
| model_update_learning_rate
| model_set_input (data : Data)
| model_optimize_parameters
| model_test
| model_get_current_losses
| model_get_current_visuals
| model_save_network (epoch : Z)
| model_netG
| util_save_visuals (save_path : string)
| util_plot_visuals
| writer_add_scalar (name : string) (loss : Loss) (step : Z)
| writer_close
| time_time
| print (m : Msg)
| loader_iter (phase : string)
| loader_next (phase : string)
| torch_randn (shape : list Z)
| tensor_to (device : string)
| open_file (path mode : string)
| torch_onnx_export (path training : string) (export_params : bool) (opset_version : Z)
| for_epoch (epoch : Z).

Definition Entry : Type := nat * Event.
Definition Trace : Type := list Entry.

Definition is_call (en : Entry) : bool :=
  match snd en with
  | for_epoch _ => false
  | _ => true
  end.

(** ** The environment

    Everything the script does not decide itself: which call raises, and
    what the calls that return something return.  Answers that may change
    during the run are indexed by the trace position of the call. *)
Record Env := {
  raises : nat -> bool;
  isdir : nat -> string -> bool;
  cuda_available : bool;
  trainSet : Z -> list Data;     (* the batches of the training pass of an epoch *)
  testSet : list Data;           (* the batches the test loader yields *)
  current_losses : nat -> list (string * Loss)
}.

(** ** The monad: start position -> outcome and emitted entries *)

Definition M (A : Type) : Type := nat -> Outcome A * Trace.

Definition ret {A} (a : A) : M A := fun _ => (Ret a, []).

Definition throw {A} (e : Exn) : M A := fun _ => (Raise e, []).

Definition bind {A B} (m : M A) (f : A -> M B) : M B :=
  fun n =>
    match m n with
    | (Ret a, t) => let (r, t') := f a (n + length t)%nat in (r, t ++ t')
    | (Raise e, t) => (Raise e, t)
    end.

Definition note (line : nat) (ev : Event) : M unit :=
  fun _ => (Ret tt, [(line, ev)]).

Definition when (b : bool) (m : M unit) : M unit := if b then m else ret tt.

Notation "x <- m ;; f" := (bind m (fun x => f))
  (at level 61, m at next level, right associativity).
Notation "m ;; f" := (bind m (fun _ => f))
  (at level 61, right associativity).

(** [a % b] on Python ints: floor modulo, [ZeroDivisionError] on [b = 0]. *)
Definition py_mod (a b : Z) : M Z :=
  if b =? 0 then throw ZeroDivisionError else ret (a mod b).

(** [x / b] for a float [x] and an int [b]: [b] is converted to a float,
    then tested for zero; only the error cases matter, the quotient is a
    time that is never used. *)
Definition py_truediv_check (b : Z) : M unit :=
  if is_finite (int_to_float b)
  then if b =? 0 then throw ZeroDivisionError else ret tt
  else throw OverflowError.

(** [a / 2] for an int [a]. *)
Definition py_truediv_2 (a : Z) : M spec_float :=
  if is_finite (truediv_2 a) then ret (truediv_2 a) else throw OverflowError.

(** [d[key]] on a dict given as its list of items. *)
Fixpoint getitem (d : list (string * Loss)) (key : string) : M Loss :=
  match d with
  | [] => throw (KeyError key)
  | (k, v) :: rest => if String.eqb k key then ret v else getitem rest key
  end.

(** ** The script *)

Section Script.
Variable cfg : Config.
Variable env : Env.
Local Open Scope string_scope.

Definition call_with {A} (line : nat) (ev : Event) (answer : nat -> A) : M A :=
  fun n => (if raises env n then Raise (Delegated n) else Ret (answer n), [(line, ev)]).

Definition call (line : nat) (ev : Event) : M unit :=
  call_with line ev (fun _ => tt).

(** [for i, data in enumerate(loader)]: every step first asks the loader
    for its next batch; the request that finds the loader exhausted ends
    the loop, and so does a [break] in the body. *)
Fixpoint for_enumerate {S} (line : nat) (phase : string) (items : list Data) (i : Z)
    (body : Z -> Data -> S -> M (Ctl S)) (s : S) : M S :=
  match items with
  | [] => call line (loader_next phase) ;; ret s
  | data :: rest =>
      call line (loader_next phase) ;;
      c <- body i data s ;;
      match c with
      | Continue s' => for_enumerate line phase rest (i + 1) body s'
      | Break s' => ret s'
      end
  end.

Definition enumerate_loader {S} (line : nat) (phase : string) (items : list Data)
    (body : Z -> Data -> S -> M (Ctl S)) (s : S) : M S :=
  call line (loader_iter phase) ;;
  for_enumerate line phase items 0 body s.

(** Lines 36-38, 40-42, 44-46 and 177-178. *)
Definition ensure_dir (l_test l_make : nat) (dir : string) : M unit :=
  present <- call_with l_test (os_path_isdir dir) (fun n => isdir env n dir) ;;
  when (negb present) (call l_make (os_makedirs dir)).

(** Lines 36-59; the value is [DEVICE]. *)
Definition module_level : M string :=
  when (SAVE_CKPTS cfg) (ensure_dir 37 38 (CKPT_DIR cfg)) ;;
  when (WRITE_LOGS cfg) (ensure_dir 41 42 (LOG_DIR cfg)) ;;
  when (SAVE_IMG_CKPT cfg) (ensure_dir 45 46 (TEST_DIR cfg)) ;;
  when (WRITE_LOGS cfg) (call 57 (SummaryWriter (LOG_DIR cfg))) ;;
  cuda <- call_with 59 torch_cuda_is_available (fun _ => cuda_available env) ;;
  let DEVICE := if cuda then "cuda:0" else "cpu" in
  call 59 (torch_device DEVICE) ;;
  ret DEVICE.

(** Lines 106-109. *)
Fixpoint log_losses (losses : list (string * Loss)) (total_iters : Z) : M unit :=
  match losses with
  | [] => ret tt
  | (name, loss) :: rest =>
      call 108 (writer_add_scalar name loss total_iters) ;;
      log_losses rest total_iters
  end.

(** Lines 88-111, one batch; the value is the new [total_iters].
    [epoch_iter] and [i] are written and never read, so they are not kept. *)
Definition train_step (epoch total_iters : Z) (data : Data) : M Z :=
  call 88 time_time ;;
  let total_iters := total_iters + BATCH_SIZE cfg in
  call 95 (model_set_input data) ;;
  call 96 model_optimize_parameters ;;
  r <- py_mod total_iters (PRINT_FREQ cfg) ;;
  when (r =? 0)%Z
    (losses <- call_with 100 model_get_current_losses (current_losses env) ;;
     call 101 time_time ;;
     py_truediv_check (BATCH_SIZE cfg) ;;
     G_GAN <- getitem losses "G_GAN" ;;
     G_L1 <- getitem losses "G_L1" ;;
     D_real <- getitem losses "D_real" ;;
     D_fake <- getitem losses "D_fake" ;;
     call 102 (print (StepLog total_iters epoch G_GAN G_L1 D_real D_fake))) ;;
  when (WRITE_LOGS cfg)
    (r <- py_mod total_iters (LOG_FREQ cfg) ;;
     when (r =? 0)%Z
       (losses <- call_with 106 model_get_current_losses (current_losses env) ;;
        log_losses losses total_iters ;;
        call 109 writer_close)) ;;
  call 111 time_time ;;
  ret total_iters.

(** Lines 87-111: the pass over the training batches. *)
Definition train_batches (epoch total_iters : Z) : M Z :=
  enumerate_loader 87 "train" (trainSet env epoch)
    (fun _ data total_iters =>
       total_iters <- train_step epoch total_iters data ;;
       ret (Continue total_iters))
    total_iters.

(** Lines 114-123: the checkpoint inside the epoch loop. *)
Definition epoch_checkpoint (epoch total_iters : Z) : M unit :=
  when (SAVE_CKPTS cfg)
    (r <- py_mod epoch (CKPT_FREQ cfg) ;;
     when (r =? 0)%Z
       (call 115 (print (SavingEpoch epoch total_iters)) ;;
        call 116 (model_save_network epoch) ;;
        when (SAVE_IMG_CKPT cfg)
          (call 120 (print (Literal "Saving current epoch test to test folder")) ;;
           call 121 model_get_current_visuals ;;
           let save_path := os_path_join (TEST_DIR cfg) ("epoch_" ++ str epoch ++ ".jpg") in
           call 123 (util_save_visuals save_path)))).

(** Lines 79-127, one epoch; the value is the new [total_iters].  The
    [time.time()] of line 127 is an argument of the [print] that starts on
    line 126, so it is evaluated first. *)
Definition train_epoch (epoch total_iters : Z) : M Z :=
  call 79 time_time ;;
  call 80 time_time ;;
  when (negb (epoch =? 0)%Z) (call 84 model_update_learning_rate) ;;
  total_iters <- train_batches epoch total_iters ;;
  epoch_checkpoint epoch total_iters ;;
  call 127 time_time ;;
  call 126 (print (EndOfEpoch epoch (EPOCHS cfg))) ;;
  ret total_iters.

(** Line 78: [for epoch in range(EPOCHS)].  [epoch] is a module-level name
    that stays bound after the loop, and is unbound if the range is empty;
    the value is its final binding together with [total_iters]. *)
Fixpoint train_epochs (epochs : list Z) (epoch : option Z) (total_iters : Z)
    : M (option Z * Z) :=
  match epochs with
  | [] => ret (epoch, total_iters)
  | e :: rest =>
      note 78 (for_epoch e) ;;
      total_iters <- train_epoch e total_iters ;;
      train_epochs rest (Some e) total_iters
  end.

(** Reading the name [epoch] after the loop (lines 133 and 138). *)
Definition load_epoch (epoch : option Z) : M Z :=
  match epoch with
  | Some e => ret e
  | None => throw (NameError "epoch")
  end.

(** Lines 131-139: the checkpoint after the epoch loop. *)
Definition final_checkpoint (epoch : option Z) : M unit :=
  when (SAVE_CKPTS cfg)
    (call 132 (print (Literal "Saving the model at the end of training")) ;;
     e <- load_epoch epoch ;;
     call 133 (model_save_network e) ;;
     when (SAVE_IMG_CKPT cfg)
       (call 136 (print (Literal "Saving final epoch test to test folder")) ;;
        call 137 model_get_current_visuals ;;
        e <- load_epoch epoch ;;
        let save_path := os_path_join (TEST_DIR cfg) ("epoch_" ++ str e ++ ".jpg") in
        call 139 (util_save_visuals save_path))).

(** Lines 67-143. *)
Definition train_mode : M unit :=
  call 68 (ImageFolderLoader "facades/AB" "train" None) ;;
  call 69 (DataLoader "train" (BATCH_SIZE cfg) false 4) ;;
  n_epochs <- py_truediv_2 (EPOCHS cfg) ;;
  n_epochs_decay <- py_truediv_2 (EPOCHS cfg) ;;
  call 72 (Pix2PixModel (CKPT_DIR cfg) (MODEL_NAME cfg) true n_epochs n_epochs_decay) ;;
  call 74 model_setup ;;
  st <- train_epochs (range (EPOCHS cfg)) None 0 ;;
  final_checkpoint (fst st) ;;
  call 142 model_get_current_visuals ;;
  call 143 util_plot_visuals.

(** Lines 158-165, one batch of the test pass. *)
Definition test_step (i : Z) (data : Data) (_ : unit) : M (Ctl unit) :=
  if (i <? TEST_SAMPLE cfg)%Z then
    call 159 (model_set_input data) ;;
    call 160 model_test ;;
    call 161 model_get_current_visuals ;;
    let save_path := os_path_join (TEST_DIR cfg) ("test_" ++ str i ++ ".jpg") in
    call 163 (util_save_visuals save_path) ;;
    ret (Continue tt)
  else ret (Break tt).

(** Lines 146-165. *)
Definition test_mode : M unit :=
  call 147 (ImageFolderLoader "facades/AB" "test" (Some false)) ;;
  call 148 (DataLoader "test" (BATCH_SIZE cfg) false 0) ;;
  n_epochs <- py_truediv_2 (EPOCHS cfg) ;;
  n_epochs_decay <- py_truediv_2 (EPOCHS cfg) ;;
  call 151 (Pix2PixModel (CKPT_DIR cfg) (MODEL_NAME cfg) false n_epochs n_epochs_decay) ;;
  call 152 model_setup ;;
  call 153 model_eval ;;
  call 154 (model_load_networks 0) ;;
  enumerate_loader 157 "test" (testSet env) test_step tt.

(** Lines 168-183. *)
Definition export_mode (DEVICE : string) : M unit :=
  call 169 (torch_randn [1; 3; 256; 256]) ;;
  n_epochs <- py_truediv_2 (EPOCHS cfg) ;;
  n_epochs_decay <- py_truediv_2 (EPOCHS cfg) ;;
  call 172 (Pix2PixModel (CKPT_DIR cfg) (MODEL_NAME cfg) false n_epochs n_epochs_decay) ;;
  call 173 model_setup ;;
  call 174 model_eval ;;
  call 175 (model_load_networks 0) ;;
  ensure_dir 177 178 "exported" ;;
  let path := os_path_join "exported" (MODEL_NAME cfg ++ ".onnx") in
  call 181 (open_file path "w+") ;;
  call 183 model_netG ;;
  call 183 (tensor_to DEVICE) ;;
  call 183 (torch_onnx_export path "EVAL" true 10).

(** The whole script, run as [__main__]. *)
Definition main : M unit :=
  DEVICE <- module_level ;;
  when (TRAIN cfg) train_mode ;;
  when (TEST cfg) test_mode ;;
  when (EXPORT_MODEL cfg) (export_mode DEVICE).

Definition run : Outcome unit * Trace := main 0%nat.

Definition outcome : Outcome unit := fst run.
Definition trace : Trace := snd run.

End Script.

(** ** Observing a trace *)

(** The events issued from one line of the script, in order. *)
Definition at_line (l : nat) (t : Trace) : list Event :=
  map snd (filter (fun en => Nat.eqb (fst en) l) t).

Definition between (lo hi : nat) (en : Entry) : bool :=
  andb (Nat.leb lo (fst en)) (Nat.leb (fst en) hi).

(** The values the loop variable [epoch] is bound to, in order. *)
Definition epochs_bound (t : Trace) : list Z :=
  flat_map (fun en : Entry => match snd en with for_epoch e => [e] | _ => [] end) t.

(** The trace cut into epochs: a block opens where line 78 binds [epoch]
    and closes with the end-of-epoch [print] of line 126; a block still open
    at the end of the trace is kept; entries outside every block are
    dropped.  A block is the value of [epoch] and the entries after the
    binding, the closing [print] included. *)
Definition close_block (cur : option (Z * Trace)) : list (Z * Trace) :=
  match cur with
  | Some b => [b]
  | None => []
  end.

Fixpoint blocks_from (cur : option (Z * Trace)) (t : Trace) : list (Z * Trace) :=
  match t with
  | [] => close_block cur
  | en :: rest =>
      match snd en with
      | for_epoch e => close_block cur ++ blocks_from (Some (e, [])) rest
      | _ =>
          match cur with
          | Some (e, b) =>
              if Nat.eqb (fst en) 126
              then (e, b ++ [en]) :: blocks_from None rest
              else blocks_from (Some (e, b ++ [en])) rest
          | None => blocks_from None rest
          end
      end
  end.

Definition epoch_blocks (t : Trace) : list (Z * Trace) := blocks_from None t.

(** The part of the script a line belongs to: 0 for the module level
    (lines 36-59), 1 for training (66-143), 2 for the test pass (145-165),
    3 for the export (167-183). *)
Definition mode_of_line (l : nat) : nat :=
  if Nat.leb l 65 then 0%nat
  else if Nat.leb l 144 then 1%nat
  else if Nat.leb l 166 then 2%nat
  else 3%nat.

Definition mode_of (en : Entry) : nat := mode_of_line (fst en).

Definition is_update_learning_rate (en : Entry) : bool :=
  match snd en with model_update_learning_rate => true | _ => false end.

Definition is_save_network (en : Entry) : bool :=
  match snd en with model_save_network _ => true | _ => false end.

Definition is_load_networks (en : Entry) : bool :=
  match snd en with model_load_networks _ => true | _ => false end.

Definition is_set_input (en : Entry) : bool :=
  match snd en with model_set_input _ => true | _ => false end.

Definition is_onnx_export (en : Entry) : bool :=
  match snd en with torch_onnx_export _ _ _ _ => true | _ => false end.

Definition is_optimize_parameters (en : Entry) : bool :=
  match snd en with model_optimize_parameters => true | _ => false end.

Definition is_makedirs (en : Entry) : bool :=
  match snd en with os_makedirs _ => true | _ => false end.

(** The batches handed to [model.set_input], in order. *)
Definition inputs_fed (t : Trace) : list Data :=
  flat_map (fun en : Entry => match snd en with model_set_input d => [d] | _ => [] end) t.

(** The epochs handed to [model.save_network], in order. *)
Definition checkpoints_saved (t : Trace) : list Z :=
  flat_map (fun en : Entry => match snd en with model_save_network e => [e] | _ => [] end) t.

(** The checkpoint indices handed to [model.load_networks], in order. *)
Definition checkpoints_loaded (t : Trace) : list Z :=
  flat_map (fun en : Entry => match snd en with model_load_networks k => [k] | _ => [] end) t.

(** The paths handed to [util.save_visuals], in order. *)
Definition images_saved (t : Trace) : list string :=
  flat_map (fun en : Entry => match snd en with util_save_visuals p => [p] | _ => [] end) t.

(** The paths handed to [torch.onnx.export], in order. *)
Definition models_exported (t : Trace) : list string :=
  flat_map (fun en : Entry => match snd en with torch_onnx_export p _ _ _ => [p] | _ => [] end) t.

(** The directories handed to [os.makedirs], in order. *)
Definition dirs_made (t : Trace) : list string :=
  flat_map (fun en : Entry => match snd en with os_makedirs d => [d] | _ => [] end) t.

(** The entries of the test pass (lines 145-165) and of the export
    (lines 167-183). *)
Definition test_pass (t : Trace) : Trace := filter (between 145 165) t.

Definition export_pass (t : Trace) : Trace := filter (between 167 183) t.

(** ** What a completed part of the script leaves in the trace

    These are the traces of the straight-line parts when no call raises;
    the lemmas below relate them to the script. *)

Section Shapes.
Variable cfg : Config.

(** Lines 114-123. *)
Definition epoch_checkpoint_trace (epoch total_iters : Z) : Trace :=
  if andb (SAVE_CKPTS cfg) (epoch mod CKPT_FREQ cfg =? 0)%Z then
    [(115%nat, print (SavingEpoch epoch total_iters));
     (116%nat, model_save_network epoch)] ++
    (if SAVE_IMG_CKPT cfg then
       [(120%nat, print (Literal "Saving current epoch test to test folder"%string));
        (121%nat, model_get_current_visuals);
        (123%nat, util_save_visuals (epoch_image cfg epoch))]
     else [])%list
  else [].

(** Lines 79-127 around the entries [inner] of the batch loop. *)
Definition epoch_trace (epoch total_iters : Z) (inner : Trace) : Trace :=
  ([(79%nat, time_time); (80%nat, time_time)] ++
   (if (epoch =? 0)%Z then [] else [(84%nat, model_update_learning_rate)]) ++
   inner ++
   epoch_checkpoint_trace epoch total_iters ++
   [(127%nat, time_time); (126%nat, print (EndOfEpoch epoch (EPOCHS cfg)))])%list.

(** Lines 131-139, with [epoch] bound to [e]. *)
Definition final_checkpoint_trace (e : Z) : Trace :=
  if SAVE_CKPTS cfg then
    [(132%nat, print (Literal "Saving the model at the end of training"%string));
     (133%nat, model_save_network e)] ++
    (if SAVE_IMG_CKPT cfg then
       [(136%nat, print (Literal "Saving final epoch test to test folder"%string));
        (137%nat, model_get_current_visuals);
        (139%nat, util_save_visuals (epoch_image cfg e))]
     else [])%list
  else [].

(** Lines 67-74. *)
Definition train_prologue : Trace :=
  [(68%nat, ImageFolderLoader "facades/AB"%string "train"%string None);
   (69%nat, DataLoader "train"%string (BATCH_SIZE cfg) false 4);
   (72%nat, Pix2PixModel (CKPT_DIR cfg) (MODEL_NAME cfg) true (truediv_2 (EPOCHS cfg)) (truediv_2 (EPOCHS cfg)));
   (74%nat, model_setup)].

(** Lines 142-143. *)
Definition train_epilogue : Trace :=
  [(142%nat, model_get_current_visuals); (143%nat, util_plot_visuals)].

(** Lines 147-157, up to the creation of the loader's iterator. *)
Definition test_prologue : Trace :=
  [(147%nat, ImageFolderLoader "facades/AB"%string "test"%string (Some false));
   (148%nat, DataLoader "test"%string (BATCH_SIZE cfg) false 0);
   (151%nat, Pix2PixModel (CKPT_DIR cfg) (MODEL_NAME cfg) false (truediv_2 (EPOCHS cfg)) (truediv_2 (EPOCHS cfg)));
   (152%nat, model_setup);
   (153%nat, model_eval);
   (154%nat, model_load_networks 0);
   (157%nat, loader_iter "test"%string)].

(** Lines 157-165 over the batches [items], the first having index [i]. *)
Fixpoint test_loop_trace (items : list Data) (i : Z) : Trace :=
  match items with
  | [] => [(157%nat, loader_next "test"%string)]
  | data :: rest =>
      (157%nat, loader_next "test"%string) ::
      if (i <? TEST_SAMPLE cfg)%Z then
        [(159%nat, model_set_input data);
         (160%nat, model_test);
         (161%nat, model_get_current_visuals);
         (163%nat, util_save_visuals (test_image cfg i))] ++
        test_loop_trace rest (i + 1)
      else []
  end%list.

(** Lines 168-183; [dir] is what line 177-178 adds. *)
Definition export_trace (DEVICE : string) (dir : Trace) : Trace :=
  ([(169%nat, torch_randn [1; 3; 256; 256]);
    (172%nat, Pix2PixModel (CKPT_DIR cfg) (MODEL_NAME cfg) false (truediv_2 (EPOCHS cfg)) (truediv_2 (EPOCHS cfg)));
    (173%nat, model_setup);
    (174%nat, model_eval);
    (175%nat, model_load_networks 0)] ++
   dir ++
   [(181%nat, open_file (export_path cfg) "w+"%string);
    (183%nat, model_netG);
    (183%nat, tensor_to DEVICE);
    (183%nat, torch_onnx_export (export_path cfg) "EVAL"%string true 10)])%list.

End Shapes.

(** The loop of line 78 as a list of epochs, each with its entries. *)
Definition blocks_trace (blocks : list (Z * Trace)) : Trace :=
  flat_map (fun eb => (78%nat, for_epoch (fst eb)) :: snd eb) blocks.

(** ** Properties of programs *)

(** Every entry a program can emit, from any position and whatever its
    outcome, satisfies [P]. *)
Definition emits {A} (P : Entry -> Prop) (m : M A) : Prop :=
  forall n, Forall P (snd (m n)).

(** A call that raises is the last entry of the trace, and its exception
    is the outcome. *)
Definition fail_stop {A} (env : Env) (m : M A) : Prop :=
  forall n j en,
    nth_error (snd (m n)) j = Some en ->
    is_call en = true ->
    raises env (n + j) = true ->
    S j = length (snd (m n)) /\ fst (m n) = Raise (Delegated (n + j)).

(** No call the script makes into other code raises. *)
Definition quiet (env : Env) : Prop := forall n, raises env n = false.

(** Wherever [m] starts, it returns a value that satisfies [R] or raises an
    exception that satisfies [E]. *)
Definition post {A} (m : M A) (R : A -> Prop) (E : Exn -> Prop) : Prop :=
  forall n, match fst (m n) with Ret a => R a | Raise e => E e end.

(** [m] cannot fail. *)
Definition ok {A} (m : M A) : Prop := post m (fun _ => True) (fun _ => False).

Definition has_key (d : list (string * Loss)) (key : string) : Prop :=
  In key (map fst d).

(** What the body of the batch loop needs in order not to fail by itself:
    nonzero divisors on lines 99, 101 and 105, a BATCH_SIZE that has a
    float, and the four losses that line 102 prints. *)
Definition steps_ok (cfg : Config) (env : Env) : Prop :=
  PRINT_FREQ cfg <> 0 /\
  BATCH_SIZE cfg <> 0 /\
  is_finite (int_to_float (BATCH_SIZE cfg)) = true /\
  (WRITE_LOGS cfg = true -> LOG_FREQ cfg <> 0) /\
  (forall n key,
      In key ["G_GAN"; "G_L1"; "D_real"; "D_fake"]%string ->
      has_key (current_losses env n) key).

(** What training needs: the above, and with SAVE_CKPTS a nonzero divisor
    on line 114 and at least one epoch, so that [epoch] is bound on
    line 133. *)
Definition trainable (cfg : Config) (env : Env) : Prop :=
  steps_ok cfg env /\
  (SAVE_CKPTS cfg = true -> CKPT_FREQ cfg <> 0 /\ 1 <= EPOCHS cfg).

(** The lines of the script each operation is issued from. *)
Definition lines_of (ev : Event) : list nat :=
  match ev with
  | os_path_isdir _ => [37; 41; 45; 177]
  | os_makedirs _ => [38; 42; 46; 178]
  | SummaryWriter _ => [57]
  | torch_cuda_is_available => [59]
  | torch_device _ => [59]
  | ImageFolderLoader _ _ _ => [68; 147]
  | DataLoader _ _ _ _ => [69; 148]
  | Pix2PixModel _ _ _ _ _ => [72; 151; 172]
  | model_setup => [74; 152; 173]
  | model_eval => [153; 174]
  | model_load_networks _ => [154; 175]
  | model_update_learning_rate => [84]
  | model_set_input _ => [95; 159]
  | model_optimize_parameters => [96]
  | model_test => [160]
  | model_get_current_losses => [100; 106]
  | model_get_current_visuals => [121; 137; 142; 161]
  | model_save_network _ => [116; 133]
  | model_netG => [183]
  | util_save_visuals _ => [123; 139; 163]
  | util_plot_visuals => [143]
  | writer_add_scalar _ _ _ => [108]
  | writer_close => [109]
  | time_time => [79; 80; 88; 101; 111; 127]
  | print _ => [102; 115; 120; 126; 132; 136]
  | loader_iter _ => [87; 157]
  | loader_next _ => [87; 157]
  | torch_randn _ => [169]
  | tensor_to _ => [183]
  | open_file _ _ => [181]
  | torch_onnx_export _ _ _ _ => [183]
  | for_epoch _ => [78]
  end%nat.

Definition placed (en : Entry) : bool :=
  existsb (Nat.eqb (fst en)) (lines_of (snd en)).

(** No line of the operation lies between [lo] and [hi]. *)
Definition off_lines (lo hi : nat) (ev : Event) : bool :=
  forallb (fun l => negb (andb (Nat.leb lo l) (Nat.leb l hi))) (lines_of ev).

(** The entry comes from a line between [lo] and [hi]. *)
Definition lines (lo hi : nat) (en : Entry) : Prop := between lo hi en = true.

(** It is moreover a call, issued from one of the lines of its operation. *)
Definition calls (lo hi : nat) (en : Entry) : Prop :=
  andb (andb (between lo hi en) (is_call en)) (placed en) = true.

(** Where an entry may put what it persists: directories are made for the
    flags that are set, the log writer gets [LOG_DIR], every model gets
    [CKPT_DIR] and [MODEL_NAME], images go into [TEST_DIR], and the
    exported model to [export_path]. *)
Definition output_location (cfg : Config) (en : Entry) : Prop :=
  match snd en with
  | os_makedirs d =>
      (d = CKPT_DIR cfg /\ SAVE_CKPTS cfg = true) \/
      (d = LOG_DIR cfg /\ WRITE_LOGS cfg = true) \/
      (d = TEST_DIR cfg /\ SAVE_IMG_CKPT cfg = true) \/
      (d = "exported"%string /\ EXPORT_MODEL cfg = true)
  | SummaryWriter d => d = LOG_DIR cfg /\ WRITE_LOGS cfg = true
  | Pix2PixModel d name _ _ _ => d = CKPT_DIR cfg /\ name = MODEL_NAME cfg
  | util_save_visuals p =>
      exists file, startswith_sep file = false /\ p = os_path_join (TEST_DIR cfg) file
  | open_file p _ => p = export_path cfg /\ EXPORT_MODEL cfg = true
  | torch_onnx_export p _ _ _ => p = export_path cfg /\ EXPORT_MODEL cfg = true
  | _ => True
  end.

(** A completed epoch: its entries are those of lines 79-127 around the
    calls of the batch loop. *)
Definition epoch_block (cfg : Config) (eb : Z * Trace) : Prop :=
  exists ti inner,
    snd eb = epoch_trace cfg (fst eb) ti inner /\ Forall (calls 87 111) inner.

(** [t] is all that a guarded part of the script emits when it is carried
    out to its end: nothing when the flag is unset. *)
Definition completed_when (b : bool) (m : M unit) (t : Trace) : Prop :=
  if b then exists n, m n = (Ret tt, t) else t = [].

(** The trace of a run that reaches the end of the script: the
    module-level entries [t0], then the parts whose flags are set. *)
Definition run_trace (cfg : Config) (env : Env) (t0 : Trace)
    (blocks : list (Z * Trace)) (fin : Trace) (DEVICE : string) (dir : Trace) : Trace :=
  t0 ++
  (if TRAIN cfg
   then train_prologue cfg ++ blocks_trace blocks ++ fin ++ train_epilogue
   else []) ++
  (if TEST cfg
   then test_prologue cfg ++ test_loop_trace cfg (testSet env) 0
   else []) ++
  (if EXPORT_MODEL cfg then export_trace cfg DEVICE dir else []).

(** ** The monad's laws of motion *)

Lemma bind_ret_inv {A B} (m : M A) (f : A -> M B) n b t :
  bind m f n = (Ret b, t) ->
  exists a t1 t2,
    m n = (Ret a, t1) /\ f a (n + length t1)%nat = (Ret b, t2) /\ t = t1 ++ t2.
Proof.
  unfold bind. destruct (m n) as [[a|e] t1]; [|discriminate].
  destruct (f a (n + length t1)%nat) as [r t2] eqn:Hf.
  intros H. inversion H; subst. exists a, t1, t2. auto.
Qed.

Lemma bind_run {A B} (m : M A) (f : A -> M B) n :
  bind m f n =
  match fst (m n) with
  | Ret a =>
      (fst (f a (n + length (snd (m n)))%nat),
       snd (m n) ++ snd (f a (n + length (snd (m n)))%nat))
  | Raise e => (Raise e, snd (m n))
  end.
Proof.
  unfold bind. destruct (m n) as [[a|e] t]; simpl; [|reflexivity].
  destruct (f a (n + length t)%nat); reflexivity.
Qed.

Lemma call_with_ret_inv {A} env l ev (ans : nat -> A) n a t :
  call_with env l ev ans n = (Ret a, t) ->
  a = ans n /\ t = [(l, ev)] /\ raises env n = false.
Proof.
  unfold call_with. destruct (raises env n); intros H; inversion H; auto.
Qed.

Lemma call_ret_inv env l ev n a t :
  call env l ev n = (Ret a, t) -> t = [(l, ev)] /\ raises env n = false.
Proof.
  unfold call. intros H. apply call_with_ret_inv in H. tauto.
Qed.

Lemma when_ret_inv (b : bool) (m : M unit) n a t :
  when b m n = (Ret a, t) ->
  (b = true /\ m n = (Ret a, t)) \/ (b = false /\ t = []).
Proof.
  unfold when, ret. destruct b; intros H; [left|right]; auto.
  inversion H; auto.
Qed.

Lemma py_mod_ret_inv a b n r t :
  py_mod a b n = (Ret r, t) -> b <> 0 /\ r = a mod b /\ t = [].
Proof.
  unfold py_mod, throw, ret. destruct (Z.eqb_spec b 0); intros H; inversion H; auto.
Qed.

Lemma py_truediv_2_ret_inv a n x t :
  py_truediv_2 a n = (Ret x, t) ->
  is_finite (truediv_2 a) = true /\ x = truediv_2 a /\ t = [].
Proof.
  unfold py_truediv_2, throw, ret. destruct (is_finite (truediv_2 a));
    intros H; inversion H; auto.
Qed.

(** *** [emits] is closed under the combinators *)

Lemma emits_ret {A} P (a : A) : emits P (ret a).
Proof. intros n. constructor. Qed.

Lemma emits_throw {A} P e : emits P (@throw A e).
Proof. intros n. constructor. Qed.

Lemma emits_note (P : Entry -> Prop) l ev : P (l, ev) -> emits P (note l ev).
Proof. intros H n. repeat constructor. exact H. Qed.

Lemma emits_call_with {A} (P : Entry -> Prop) env l ev (ans : nat -> A) :
  P (l, ev) -> emits P (call_with env l ev ans).
Proof. intros H n. repeat constructor. exact H. Qed.

Lemma emits_call (P : Entry -> Prop) env l ev : P (l, ev) -> emits P (call env l ev).
Proof. apply emits_call_with. Qed.

Lemma emits_bind {A B} P (m : M A) (f : A -> M B) :
  emits P m -> (forall a, emits P (f a)) -> emits P (bind m f).
Proof.
  intros Hm Hf n. rewrite bind_run. specialize (Hm n).
  destruct (fst (m n)); simpl; auto.
  apply Forall_app. split; auto. apply Hf.
Qed.

Lemma emits_when P (b : bool) m : (b = true -> emits P m) -> emits P (when b m).
Proof. destruct b; simpl; auto using emits_ret. Qed.

Lemma emits_py_mod P a b : emits P (py_mod a b).
Proof. unfold py_mod. destruct (b =? 0); auto using emits_ret, emits_throw. Qed.

Lemma emits_py_truediv_check P b : emits P (py_truediv_check b).
Proof.
  unfold py_truediv_check. destruct (is_finite _), (b =? 0);
    auto using emits_ret, emits_throw.
Qed.

Lemma emits_py_truediv_2 P a : emits P (py_truediv_2 a).
Proof.
  unfold py_truediv_2. destruct (is_finite _); auto using emits_ret, emits_throw.
Qed.

Lemma emits_getitem P d key : emits P (getitem d key).
Proof.
  induction d as [|[k v] d IH]; simpl; auto using emits_throw.
  destruct (String.eqb k key); auto using emits_ret.
Qed.

Lemma emits_load_epoch P epoch : emits P (load_epoch epoch).
Proof. destruct epoch; simpl; auto using emits_ret, emits_throw. Qed.

Lemma emits_weaken {A} (P Q : Entry -> Prop) (m : M A) :
  (forall en, P en -> Q en) -> emits P m -> emits Q m.
Proof. intros H Hm n. eapply Forall_impl; [exact H|apply Hm]. Qed.

Lemma emits_for_enumerate {S} (P : Entry -> Prop) env line phase items
    (body : Z -> Data -> S -> M (Ctl S)) :
  P (line, loader_next phase) ->
  (forall i d s, emits P (body i d s)) ->
  forall i s, emits P (for_enumerate env line phase items i body s).
Proof.
  intros Hn Hb. induction items as [|d items IH]; intros i s; simpl.
  - apply emits_bind; [apply emits_call; exact Hn | intros; apply emits_ret].
  - apply emits_bind; [apply emits_call; exact Hn | intros _].
    apply emits_bind; [apply Hb | intros [s'|s']]; [apply IH | apply emits_ret].
Qed.

Lemma emits_enumerate_loader {S} (P : Entry -> Prop) env line phase items
    (body : Z -> Data -> S -> M (Ctl S)) s :
  P (line, loader_iter phase) ->
  P (line, loader_next phase) ->
  (forall i d s, emits P (body i d s)) ->
  emits P (enumerate_loader env line phase items body s).
Proof.
  intros Hi Hn Hb. unfold enumerate_loader.
  apply emits_bind; [apply emits_call; exact Hi | intros _].
  apply emits_for_enumerate; assumption.
Qed.

Lemma emits_log_losses (P : Entry -> Prop) env losses total_iters :
  (forall name loss, P (108%nat, writer_add_scalar name loss total_iters)) ->
  emits P (log_losses env losses total_iters).
Proof.
  intros H. induction losses as [|[name loss] losses IH]; simpl.
  - apply emits_ret.
  - apply emits_bind; [apply emits_call; apply H | intros _; exact IH].
Qed.

(** One step of a structural proof of [emits]; [side] closes the
    obligation on a single entry. *)
Ltac emits_step side :=
  first
    [ apply emits_ret
    | apply emits_throw
    | apply emits_py_mod
    | apply emits_py_truediv_check
    | apply emits_py_truediv_2
    | apply emits_getitem
    | apply emits_load_epoch
    | apply emits_call; [solve [side]]
    | apply emits_call_with; [solve [side]]
    | apply emits_note; [solve [side]]
    | apply emits_log_losses; [intros; solve [side]]
    | apply emits_enumerate_loader; [solve [side] | solve [side] | intros]
    | apply emits_when; intros ?
    | apply emits_bind; [|intros ?]
    | match goal with
      | |- emits _ (match ?x with _ => _ end) => destruct x
      | |- emits _ (let _ := _ in _) => cbv zeta
      end ].

Ltac emits_auto side := repeat emits_step side.

(** *** [fail_stop] is closed under the combinators *)

Lemma fail_stop_silent {A} env (m : M A) :
  (forall n, snd (m n) = []) -> fail_stop env m.
Proof.
  intros H n j en Hj. rewrite H in Hj. destruct j; discriminate.
Qed.

Lemma fail_stop_ret {A} env (a : A) : fail_stop env (ret a).
Proof. apply fail_stop_silent. reflexivity. Qed.

Lemma fail_stop_throw {A} env e : fail_stop env (@throw A e).
Proof. apply fail_stop_silent. reflexivity. Qed.

Lemma fail_stop_note env l e : fail_stop env (note l (for_epoch e)).
Proof.
  intros n j en Hj Hc. simpl in Hj.
  destruct j as [|j]; [|destruct j; discriminate].
  inversion Hj; subst. discriminate.
Qed.

Lemma fail_stop_call_with {A} env l ev (ans : nat -> A) :
  fail_stop env (call_with env l ev ans).
Proof.
  intros n j en Hj _ Hr. unfold call_with in *. simpl in *.
  destruct j as [|j]; [|destruct j; discriminate].
  rewrite Nat.add_0_r in *. rewrite Hr. auto.
Qed.

Lemma fail_stop_call env l ev : fail_stop env (call env l ev).
Proof. apply fail_stop_call_with. Qed.

Lemma fail_stop_bind {A B} env (m : M A) (f : A -> M B) :
  fail_stop env m -> (forall a, fail_stop env (f a)) -> fail_stop env (bind m f).
Proof.
  intros Hm Hf n j en. rewrite bind_run.
  specialize (Hm n). destruct (m n) as [[a|e] t1]; simpl in *.
  - intros Hj Hc Hr. destruct (Nat.lt_ge_cases j (length t1)) as [Hlt|Hge].
    + rewrite nth_error_app1 in Hj by exact Hlt.
      destruct (Hm j en Hj Hc Hr) as [_ Habs]. discriminate.
    + rewrite nth_error_app2 in Hj by exact Hge.
      replace (n + j)%nat with (n + length t1 + (j - length t1))%nat in * by lia.
      destruct (Hf a _ _ _ Hj Hc Hr) as [Hlen Hout].
      split; [|exact Hout]. rewrite length_app. lia.
  - intros Hj Hc Hr. destruct (Hm j en Hj Hc Hr) as [Hlen Hout].
    split; [exact Hlen|]. congruence.
Qed.

Lemma fail_stop_when env (b : bool) m : fail_stop env m -> fail_stop env (when b m).
Proof. destruct b; simpl; auto using fail_stop_ret. Qed.

Lemma fail_stop_py_mod env a b : fail_stop env (py_mod a b).
Proof. unfold py_mod. destruct (b =? 0); auto using fail_stop_ret, fail_stop_throw. Qed.

Lemma fail_stop_py_truediv_check env b : fail_stop env (py_truediv_check b).
Proof.
  unfold py_truediv_check. destruct (is_finite _), (b =? 0);
    auto using fail_stop_ret, fail_stop_throw.
Qed.

Lemma fail_stop_py_truediv_2 env a : fail_stop env (py_truediv_2 a).
Proof.
  unfold py_truediv_2. destruct (is_finite _); auto using fail_stop_ret, fail_stop_throw.
Qed.

Lemma fail_stop_getitem env d key : fail_stop env (getitem d key).
Proof.
  induction d as [|[k v] d IH]; simpl; auto using fail_stop_throw.
  destruct (String.eqb k key); auto using fail_stop_ret.
Qed.

Lemma fail_stop_load_epoch env epoch : fail_stop env (load_epoch epoch).
Proof. destruct epoch; simpl; auto using fail_stop_ret, fail_stop_throw. Qed.

Lemma fail_stop_for_enumerate {S} env line phase items
    (body : Z -> Data -> S -> M (Ctl S)) :
  (forall i d s, fail_stop env (body i d s)) ->
  forall i s, fail_stop env (for_enumerate env line phase items i body s).
Proof.
  intros Hb. induction items as [|d items IH]; intros i s; simpl.
  - apply fail_stop_bind; [apply fail_stop_call | intros; apply fail_stop_ret].
  - apply fail_stop_bind; [apply fail_stop_call | intros _].
    apply fail_stop_bind; [apply Hb | intros [s'|s']]; [apply IH | apply fail_stop_ret].
Qed.

Lemma fail_stop_enumerate_loader {S} env line phase items
    (body : Z -> Data -> S -> M (Ctl S)) s :
  (forall i d s, fail_stop env (body i d s)) ->
  fail_stop env (enumerate_loader env line phase items body s).
Proof.
  intros Hb. unfold enumerate_loader.
  apply fail_stop_bind; [apply fail_stop_call | intros _].
  apply fail_stop_for_enumerate; assumption.
Qed.

Lemma fail_stop_log_losses env losses total_iters :
  fail_stop env (log_losses env losses total_iters).
Proof.
  induction losses as [|[name loss] losses IH]; simpl.
  - apply fail_stop_ret.
  - apply fail_stop_bind; [apply fail_stop_call | intros _; exact IH].
Qed.

Ltac fail_stop_step :=
  first
    [ apply fail_stop_ret
    | apply fail_stop_throw
    | apply fail_stop_py_mod
    | apply fail_stop_py_truediv_check
    | apply fail_stop_py_truediv_2
    | apply fail_stop_getitem
    | apply fail_stop_load_epoch
    | apply fail_stop_call
    | apply fail_stop_call_with
    | apply fail_stop_note
    | apply fail_stop_log_losses
    | apply fail_stop_enumerate_loader; intros
    | apply fail_stop_when
    | apply fail_stop_bind; [|intros ?]
    | match goal with
      | |- fail_stop _ (match ?x with _ => _ end) => destruct x
      | |- fail_stop _ (let _ := _ in _) => cbv zeta
      end ].

Ltac fail_stop_auto := repeat fail_stop_step.

(** ** Which lines each part of the script issues its calls from *)

Ltac on_line := reflexivity.

Lemma module_level_calls cfg env : emits (calls 37 59) (module_level cfg env).
Proof. unfold module_level, ensure_dir. emits_auto on_line. Qed.

Lemma train_step_calls cfg env epoch total_iters data :
  emits (calls 88 111) (train_step cfg env epoch total_iters data).
Proof. unfold train_step. emits_auto on_line. Qed.

Lemma train_batches_calls cfg env epoch total_iters :
  emits (calls 87 111) (train_batches cfg env epoch total_iters).
Proof.
  unfold train_batches. emits_auto on_line.
Qed.

Lemma epoch_checkpoint_calls cfg env epoch total_iters :
  emits (calls 115 123) (epoch_checkpoint cfg env epoch total_iters).
Proof. unfold epoch_checkpoint. emits_auto on_line. Qed.

Lemma final_checkpoint_calls cfg env epoch :
  emits (calls 132 139) (final_checkpoint cfg env epoch).
Proof. unfold final_checkpoint. emits_auto on_line. Qed.

Lemma lines_weaken lo hi lo' hi' en :
  (lo' <= lo)%nat -> (hi <= hi')%nat -> lines lo hi en -> lines lo' hi' en.
Proof.
  unfold lines, between. intros Hlo Hhi H.
  apply andb_true_iff in H. destruct H as [H1 H2].
  apply Nat.leb_le in H1, H2.
  apply andb_true_iff. split; apply Nat.leb_le; lia.
Qed.

Lemma emits_lines_weaken {A} lo hi lo' hi' (m : M A) :
  (lo' <= lo)%nat -> (hi <= hi')%nat -> emits (lines lo hi) m -> emits (lines lo' hi') m.
Proof. intros Hlo Hhi. apply emits_weaken. intros en. apply lines_weaken; assumption. Qed.

Lemma between_spec lo hi en :
  between lo hi en = true <-> (lo <= fst en <= hi)%nat.
Proof.
  unfold between. rewrite andb_true_iff, !Nat.leb_le. tauto.
Qed.

Lemma calls_inv lo hi en :
  calls lo hi en ->
  (lo <= fst en <= hi)%nat /\ is_call en = true /\ placed en = true.
Proof.
  unfold calls. rewrite !andb_true_iff, between_spec. tauto.
Qed.

Lemma calls_lines lo hi en : calls lo hi en -> lines lo hi en.
Proof. intros H. apply calls_inv in H. apply between_spec. tauto. Qed.

Lemma calls_is_call lo hi en : calls lo hi en -> is_call en = true.
Proof. intros H. apply calls_inv in H. tauto. Qed.

Lemma emits_calls_lines {A} lo hi lo' hi' (m : M A) :
  (lo' <= lo)%nat -> (hi <= hi')%nat -> emits (calls lo hi) m -> emits (lines lo' hi') m.
Proof.
  intros Hlo Hhi. apply emits_weaken. intros en H.
  apply lines_weaken with lo hi; auto using calls_lines.
Qed.

Lemma train_epoch_calls cfg env epoch total_iters :
  emits (calls 79 127) (train_epoch cfg env epoch total_iters).
Proof.
  unfold train_epoch. emits_auto on_line.
Qed.

Lemma emits_train_epochs (P : Entry -> Prop) cfg env :
  (forall e, P (78%nat, for_epoch e)) ->
  (forall e total_iters, emits P (train_epoch cfg env e total_iters)) ->
  forall epochs epoch total_iters,
    emits P (train_epochs cfg env epochs epoch total_iters).
Proof.
  intros Hn Hb. induction epochs as [|e epochs IH]; intros epoch total_iters; simpl.
  - apply emits_ret.
  - apply emits_bind; [apply emits_note; apply Hn | intros _].
    apply emits_bind; [apply Hb | intros ti; apply IH].
Qed.

Lemma train_epochs_lines cfg env epochs epoch total_iters :
  emits (lines 78 127) (train_epochs cfg env epochs epoch total_iters).
Proof.
  apply emits_train_epochs; [reflexivity|].
  intros e ti. eapply emits_calls_lines; [| |apply train_epoch_calls]; repeat constructor.
Qed.

Lemma train_mode_lines cfg env : emits (lines 68 143) (train_mode cfg env).
Proof.
  unfold train_mode. emits_auto on_line.
  eapply emits_lines_weaken; [| |apply train_epochs_lines]; repeat constructor.
Qed.

Lemma test_mode_calls cfg env : emits (calls 147 163) (test_mode cfg env).
Proof. unfold test_mode, test_step. emits_auto on_line. Qed.

Lemma export_mode_calls cfg env DEVICE : emits (calls 169 183) (export_mode cfg env DEVICE).
Proof. unfold export_mode, ensure_dir. emits_auto on_line. Qed.

(** *** Every part of the script is fail-stop *)

Lemma fail_stop_train_epochs cfg env epochs :
  forall epoch total_iters,
    fail_stop env (train_epochs cfg env epochs epoch total_iters).
Proof.
  induction epochs as [|e epochs IH]; intros epoch total_iters; simpl.
  - apply fail_stop_ret.
  - apply fail_stop_bind; [apply fail_stop_note | intros _].
    apply fail_stop_bind; [|intros ti; apply IH].
    unfold train_epoch, train_batches, epoch_checkpoint, train_step. fail_stop_auto.
Qed.

Lemma fail_stop_main cfg env : fail_stop env (main cfg env).
Proof.
  unfold main. apply fail_stop_bind.
  { unfold module_level, ensure_dir. fail_stop_auto. }
  intros DEVICE. apply fail_stop_bind.
  { apply fail_stop_when. unfold train_mode. fail_stop_auto.
    apply fail_stop_train_epochs. }
  intros _. apply fail_stop_bind.
  { apply fail_stop_when. unfold test_mode, test_step. fail_stop_auto. }
  intros _. apply fail_stop_when. unfold export_mode, ensure_dir. fail_stop_auto.
Qed.

(** ** Completed parts of the script *)

(** Read a hypothesis [H : m n = (Ret a, t)] back into what [m] did. *)
Ltac ret_inv H :=
  lazymatch type of H with
  | bind _ _ _ = (Ret _, _) =>
      let a := fresh "a" in
      let t1 := fresh "t" in
      let t2 := fresh "t" in
      let H1 := fresh "H" in
      let H2 := fresh "H" in
      apply bind_ret_inv in H;
      destruct H as (a & t1 & t2 & H1 & H2 & ->);
      ret_inv H1; ret_inv H2
  | call _ _ _ _ = (Ret _, _) =>
      let Hr := fresh "Hr" in
      apply call_ret_inv in H; destruct H as [-> Hr]
  | call_with _ _ _ _ _ = (Ret _, _) =>
      let Hr := fresh "Hr" in
      apply call_with_ret_inv in H; destruct H as (-> & -> & Hr)
  | note _ _ _ = (Ret _, _) =>
      inversion H; subst; clear H
  | ret _ _ = (Ret _, _) =>
      inversion H; subst; clear H
  | throw _ _ = (Ret _, _) =>
      discriminate H
  | py_mod _ _ _ = (Ret _, _) =>
      let Hz := fresh "Hz" in
      apply py_mod_ret_inv in H; destruct H as (Hz & -> & ->)
  | py_truediv_2 _ _ = (Ret _, _) =>
      let Hfin := fresh "Hfin" in
      apply py_truediv_2_ret_inv in H; destruct H as (Hfin & -> & ->)
  | when _ _ _ = (Ret _, _) =>
      let E := fresh "E" in
      apply when_ret_inv in H;
      destruct H as [[E H]|[E ->]]; [ret_inv H|]
  | _ => idtac
  end.

Ltac flags :=
  repeat match goal with
         | E : _ = true |- _ => rewrite E
         | E : _ = false |- _ => rewrite E
         end.

Lemma epoch_checkpoint_ret cfg env e ti n a t :
  epoch_checkpoint cfg env e ti n = (Ret a, t) ->
  t = epoch_checkpoint_trace cfg e ti /\ (SAVE_CKPTS cfg = true -> CKPT_FREQ cfg <> 0).
Proof.
  unfold epoch_checkpoint, epoch_checkpoint_trace, epoch_image. intros H.
  ret_inv H; flags; cbn [andb app]; split; auto; discriminate.
Qed.

Lemma load_epoch_ret epoch n e t :
  load_epoch epoch n = (Ret e, t) -> epoch = Some e /\ t = [].
Proof. destruct epoch; simpl; intros H; inversion H; auto. Qed.

Lemma final_checkpoint_ret cfg env epoch n a t :
  final_checkpoint cfg env epoch n = (Ret a, t) ->
  (SAVE_CKPTS cfg = false /\ t = []) \/
  (exists e, epoch = Some e /\ t = final_checkpoint_trace cfg e).
Proof.
  unfold final_checkpoint, final_checkpoint_trace, epoch_image. intros H.
  ret_inv H; [| |left; auto].
  all: repeat match goal with
              | H : load_epoch _ _ = (Ret _, _) |- _ =>
                  apply load_epoch_ret in H; destruct H as [? ->]
              end.
  all: subst; right; eexists; split; [reflexivity|]; flags; cbn [app].
  - match goal with H : Some _ = Some _ |- _ => inversion H; subst end. reflexivity.
  - reflexivity.
Qed.

Lemma emits_at {A} (P : Entry -> Prop) (m : M A) n r t :
  emits P m -> m n = (r, t) -> Forall P t.
Proof. intros Hm H. specialize (Hm n). rewrite H in Hm. exact Hm. Qed.

Lemma train_epoch_ret cfg env e ti n ti' b :
  train_epoch cfg env e ti n = (Ret ti', b) ->
  exists inner,
    b = epoch_trace cfg e ti' inner /\
    Forall (calls 87 111) inner /\
    (SAVE_CKPTS cfg = true -> CKPT_FREQ cfg <> 0).
Proof.
  unfold train_epoch, epoch_trace. intros H. ret_inv H.
  all: match goal with
       | Hb : train_batches _ _ _ _ _ = (Ret _, ?inner),
         Hc : epoch_checkpoint _ _ _ _ _ = (Ret _, _) |- _ =>
           exists inner;
           apply epoch_checkpoint_ret in Hc; destruct Hc as [-> Hfreq];
           pose proof (emits_at _ _ _ _ _ (train_batches_calls _ _ _ _) Hb)
       end.
  all: split; [|split; assumption].
  all: destruct (e =? 0); try discriminate; reflexivity.
Qed.

Lemma last_nonempty {A} (x : A) l d d' : last (x :: l) d = last (x :: l) d'.
Proof.
  revert x. induction l as [|y l IH]; intros x; [reflexivity|].
  change (last (y :: l) d = last (y :: l) d'). apply IH.
Qed.

Lemma train_epochs_ret cfg env epochs :
  forall epoch total_iters n epoch' total_iters' t,
    train_epochs cfg env epochs epoch total_iters n = (Ret (epoch', total_iters'), t) ->
    exists blocks,
      t = blocks_trace blocks /\
      map fst blocks = epochs /\
      epoch' = last (map Some epochs) epoch /\
      Forall (epoch_block cfg) blocks /\
      (epochs <> [] -> SAVE_CKPTS cfg = true -> CKPT_FREQ cfg <> 0).
Proof.
  induction epochs as [|e epochs IH]; intros epoch ti n epoch' ti' t H; simpl in H.
  - inversion H; subst. exists []. repeat split; auto; congruence.
  - ret_inv H.
    match goal with
    | He : train_epoch _ _ _ _ _ = (Ret _, _),
      Hr : train_epochs _ _ _ _ _ _ = (Ret _, _) |- _ =>
        apply train_epoch_ret in He; destruct He as (inner & -> & Hin & Hfreq);
        apply IH in Hr; destruct Hr as (blocks & -> & Hfst & Hlast & Hall & _)
    end.
    eexists ((e, _) :: blocks). split; [reflexivity|].
    split; [simpl; congruence|].
    split.
    { rewrite Hlast. destruct epochs as [|z epochs]; [reflexivity|].
      change (last (map Some (e :: z :: epochs)) epoch)
        with (last (Some z :: map Some epochs) epoch).
      apply last_nonempty. }
    split; [|intros _; exact Hfreq].
    constructor; [|exact Hall].
    do 2 eexists. split; [reflexivity|exact Hin].
Qed.

(** *** [range] *)

Lemma range_nonpos n : n <= 0 -> range n = [].
Proof.
  intros H. unfold range. replace (Z.to_nat n) with 0%nat by lia. reflexivity.
Qed.

Lemma range_succ n : 0 <= n -> range (n + 1) = range n ++ [n].
Proof.
  intros H. unfold range.
  replace (Z.to_nat (n + 1)) with (S (Z.to_nat n)) by lia.
  rewrite seq_S, map_app. simpl. rewrite Z2Nat.id by exact H. reflexivity.
Qed.

Lemma length_range n : length (range n) = Z.to_nat n.
Proof. unfold range. rewrite length_map, length_seq. reflexivity. Qed.

Lemma In_range e n : In e (range n) <-> 0 <= e < n.
Proof.
  unfold range. rewrite in_map_iff. split.
  - intros (k & <- & Hk). apply in_seq in Hk. lia.
  - intros H. exists (Z.to_nat e). split; [lia|]. apply in_seq. lia.
Qed.

Lemma NoDup_range n : NoDup (range n).
Proof.
  unfold range. apply NoDup_map_inv with (f := Z.to_nat).
  rewrite map_map. erewrite map_ext; [rewrite map_id; apply seq_NoDup|].
  intros k. simpl. apply Nat2Z.id.
Qed.

Lemma nth_error_range n k :
  (k < Z.to_nat n)%nat -> nth_error (range n) k = Some (Z.of_nat k).
Proof.
  intros H. unfold range. rewrite nth_error_map, nth_error_seq.
  destruct (Nat.ltb_spec k (Z.to_nat n)); [reflexivity|lia].
Qed.

Lemma range_last n : 1 <= n -> last (map Some (range n)) None = Some (n - 1).
Proof.
  intros H. replace n with ((n - 1) + 1) at 1 by lia.
  rewrite range_succ by lia. rewrite map_app. apply last_last.
Qed.

(** *** The test pass and the export *)

Lemma test_loop_ret cfg env items :
  forall i n a t,
    for_enumerate env 157 "test" items i (test_step cfg env) tt n = (Ret a, t) ->
    t = test_loop_trace cfg items i.
Proof.
  induction items as [|d items IH]; intros i n a t H; simpl in H.
  - ret_inv H. reflexivity.
  - ret_inv H. simpl. unfold test_step in *.
    destruct (i <? TEST_SAMPLE cfg).
    + match goal with
      | Hb : bind _ _ _ = (Ret _, _) |- _ => ret_inv Hb
      end.
      match goal with
      | Hl : for_enumerate _ _ _ _ _ _ _ _ = (Ret _, _) |- _ =>
          apply IH in Hl; subst
      end.
      reflexivity.
    + repeat match goal with
             | Hb : ret _ _ = (Ret _, _) |- _ => ret_inv Hb
             end.
      reflexivity.
Qed.

Lemma test_mode_ret cfg env n a t :
  test_mode cfg env n = (Ret a, t) ->
  t = test_prologue cfg ++ test_loop_trace cfg (testSet env) 0.
Proof.
  unfold test_mode, enumerate_loader. intros H. ret_inv H.
  match goal with
  | Hl : for_enumerate _ _ _ _ _ _ _ _ = (Ret _, _) |- _ =>
      apply test_loop_ret in Hl; subst
  end.
  reflexivity.
Qed.

Lemma export_mode_ret cfg env DEVICE n a t :
  export_mode cfg env DEVICE n = (Ret a, t) ->
  exists dir,
    t = export_trace cfg DEVICE dir /\
    (dir = [(177%nat, os_path_isdir "exported")] \/
     dir = [(177%nat, os_path_isdir "exported"); (178%nat, os_makedirs "exported")]).
Proof.
  unfold export_mode, ensure_dir, export_trace, export_path. intros H. ret_inv H.
  - eexists. split; [reflexivity|]. right. reflexivity.
  - eexists. split; [reflexivity|]. left. reflexivity.
Qed.

(** *** Training as a whole *)

Lemma train_mode_ret cfg env n a t :
  train_mode cfg env n = (Ret a, t) ->
  exists blocks fin,
    t = train_prologue cfg ++ blocks_trace blocks ++ fin ++ train_epilogue /\
    map fst blocks = range (EPOCHS cfg) /\
    Forall (epoch_block cfg) blocks /\
    ((SAVE_CKPTS cfg = false /\ fin = []) \/
     (SAVE_CKPTS cfg = true /\ 1 <= EPOCHS cfg /\ CKPT_FREQ cfg <> 0 /\
      fin = final_checkpoint_trace cfg (EPOCHS cfg - 1))).
Proof.
  unfold train_mode. intros H. ret_inv H.
  match goal with
  | He : train_epochs _ _ _ _ _ _ = (Ret ?st, _),
    Hf : final_checkpoint _ _ _ _ = (Ret _, ?fin) |- _ =>
      destruct st as [epoch' ti'];
      apply train_epochs_ret in He;
      destruct He as (blocks & -> & Hfst & Hlast & Hall & Hfreq);
      apply final_checkpoint_ret in Hf;
      exists blocks, fin
  end.
  split; [reflexivity|]. split; [exact Hfst|]. split; [exact Hall|].
  simpl in *.
  match goal with
  | Hf : _ \/ _ |- _ => destruct Hf as [[Hs ->]|(e & He & ->)]
  end.
  - left. auto.
  - destruct (SAVE_CKPTS cfg) eqn:Hs.
    + right. split; [reflexivity|].
      destruct (Z_le_gt_dec 1 (EPOCHS cfg)) as [Hge|Hlt].
      * rewrite range_last in Hlast by exact Hge.
        assert (e = EPOCHS cfg - 1) by congruence. subst e.
        repeat split; auto. apply Hfreq; auto.
        intros Hnil. apply (f_equal (@length Z)) in Hnil.
        rewrite length_range in Hnil. simpl in Hnil. lia.
      * rewrite range_nonpos in Hlast by lia. simpl in Hlast. congruence.
    + left. split; [reflexivity|]. unfold final_checkpoint_trace. rewrite Hs. reflexivity.
Qed.

(** *** The whole run, whatever its outcome *)

Lemma when_run (b : bool) (m : M unit) n r t :
  when b m n = (r, t) ->
  (b = false -> t = []) /\
  (forall a, r = Ret a -> completed_when b m t) /\
  (b = true -> m n = (r, t)).
Proof.
  unfold when, completed_when. destruct b; intros H.
  - repeat split; try discriminate; auto.
    intros [] ->. eauto.
  - inversion H; subst. repeat split; auto; discriminate.
Qed.

Lemma run_parts cfg env :
  exists t0 t1 t2 t3,
    trace cfg env = t0 ++ t1 ++ t2 ++ t3 /\
    Forall (calls 37 59) t0 /\
    Forall (lines 68 143) t1 /\
    Forall (calls 147 163) t2 /\
    Forall (calls 169 183) t3 /\
    (TRAIN cfg = false -> t1 = []) /\
    (TEST cfg = false -> t2 = []) /\
    (EXPORT_MODEL cfg = false -> t3 = []) /\
    (t2 ++ t3 <> [] -> completed_when (TRAIN cfg) (train_mode cfg env) t1) /\
    (t3 <> [] -> completed_when (TEST cfg) (test_mode cfg env) t2) /\
    (outcome cfg env = Ret tt ->
     completed_when (TRAIN cfg) (train_mode cfg env) t1 /\
     completed_when (TEST cfg) (test_mode cfg env) t2 /\
     exists DEVICE, completed_when (EXPORT_MODEL cfg) (export_mode cfg env DEVICE) t3).
Proof.
  unfold trace, outcome, run, main.
  rewrite bind_run.
  pose proof (module_level_calls cfg env 0%nat) as L0.
  destruct (module_level cfg env 0%nat) as [[DEVICE|e0] t0]; cbn [fst snd] in *.
  2:{ exists t0, [], [], []. cbn [app]. rewrite app_nil_r.
      repeat split; auto; try discriminate; intros Hne; exfalso; apply Hne; reflexivity. }
  rewrite bind_run.
  match goal with
  | |- context [when (TRAIN cfg) ?m ?n] =>
      destruct (when (TRAIN cfg) m n) as [r1 t1] eqn:H1
  end.
  pose proof (when_run _ _ _ _ _ H1) as (N1 & C1 & R1).
  assert (L1 : Forall (lines 68 143) t1).
  { destruct (TRAIN cfg); [|rewrite N1 by reflexivity; constructor].
    apply (emits_at _ _ _ _ _ (train_mode_lines cfg env) (R1 eq_refl)). }
  destruct r1 as [[]|e1]; cbn [fst snd] in *.
  2:{ exists t0, t1, [], []. cbn [app]. rewrite app_nil_r.
      repeat split; auto; try discriminate; intros Hne; exfalso; apply Hne; reflexivity. }
  rewrite bind_run.
  match goal with
  | |- context [when (TEST cfg) ?m ?n] =>
      destruct (when (TEST cfg) m n) as [r2 t2] eqn:H2
  end.
  pose proof (when_run _ _ _ _ _ H2) as (N2 & C2 & R2).
  assert (L2 : Forall (calls 147 163) t2).
  { destruct (TEST cfg); [|rewrite N2 by reflexivity; constructor].
    apply (emits_at _ _ _ _ _ (test_mode_calls cfg env) (R2 eq_refl)). }
  destruct r2 as [[]|e2]; cbn [fst snd] in *.
  2:{ exists t0, t1, t2, []. rewrite !app_nil_r.
      repeat split; eauto; try discriminate; intros Hne; exfalso; apply Hne; reflexivity. }
  match goal with
  | |- context [when (EXPORT_MODEL cfg) ?m ?n] =>
      destruct (when (EXPORT_MODEL cfg) m n) as [r3 t3] eqn:H3
  end.
  pose proof (when_run _ _ _ _ _ H3) as (N3 & C3 & R3).
  assert (L3 : Forall (calls 169 183) t3).
  { destruct (EXPORT_MODEL cfg); [|rewrite N3 by reflexivity; constructor].
    apply (emits_at _ _ _ _ _ (export_mode_calls cfg env DEVICE) (R3 eq_refl)). }
  exists t0, t1, t2, t3. cbn [fst snd].
  repeat split; eauto.
Qed.

(** ** Cutting a trace into epochs *)

Lemma blocks_from_outside t :
  Forall (fun en => is_call en = true) t ->
  forall rest, blocks_from None (t ++ rest) = blocks_from None rest.
Proof.
  induction 1 as [|[l ev] t Hc _ IH]; intros rest; [reflexivity|].
  destruct ev; try discriminate; simpl; apply IH.
Qed.

Lemma blocks_from_inside t :
  Forall (fun en => is_call en = true /\ fst en <> 126%nat) t ->
  forall e b rest,
    blocks_from (Some (e, b)) (t ++ rest) = blocks_from (Some (e, b ++ t)) rest.
Proof.
  induction 1 as [|[l ev] t [Hc Hl] _ IH]; intros e b rest.
  - rewrite app_nil_r. reflexivity.
  - simpl in Hl. apply Nat.eqb_neq in Hl.
    transitivity (blocks_from (Some (e, (b ++ [(l, ev)]) ++ t)) rest).
    + rewrite <- IH.
      destruct ev; try discriminate; simpl; rewrite Hl; reflexivity.
    + rewrite <- app_assoc. reflexivity.
Qed.

Lemma calls_inside lo hi en :
  (hi < 126)%nat \/ (126 < lo)%nat ->
  calls lo hi en -> is_call en = true /\ fst en <> 126%nat.
Proof.
  intros Hd H. apply calls_inv in H. destruct H as (Hl & Hc & _).
  split; [exact Hc|lia].
Qed.

Lemma epoch_checkpoint_trace_calls cfg e ti :
  Forall (calls 115 123) (epoch_checkpoint_trace cfg e ti).
Proof.
  unfold epoch_checkpoint_trace.
  destruct (SAVE_CKPTS cfg && (e mod CKPT_FREQ cfg =? 0))%bool; [|constructor].
  destruct (SAVE_IMG_CKPT cfg); repeat constructor.
Qed.

Lemma final_checkpoint_trace_calls cfg e :
  Forall (calls 132 139) (final_checkpoint_trace cfg e).
Proof.
  unfold final_checkpoint_trace.
  destruct (SAVE_CKPTS cfg); [|constructor].
  destruct (SAVE_IMG_CKPT cfg); repeat constructor.
Qed.

(** A completed epoch is work that leaves the block open, then the
    [print] of line 126 that closes it. *)
Lemma epoch_block_split cfg e b :
  epoch_block cfg (e, b) ->
  exists work,
    b = work ++ [(126%nat, print (EndOfEpoch e (EPOCHS cfg)))] /\
    Forall (fun en => is_call en = true /\ fst en <> 126%nat) work.
Proof.
  intros (ti & inner & Hb & Hin). simpl in Hb. subst b. unfold epoch_trace.
  exists ([(79%nat, time_time); (80%nat, time_time)] ++
          (if e =? 0 then [] else [(84%nat, model_update_learning_rate)]) ++
          inner ++ epoch_checkpoint_trace cfg e ti ++ [(127%nat, time_time)]).
  split.
  - rewrite <- !app_assoc. reflexivity.
  - repeat (apply Forall_app; split).
    + repeat constructor; discriminate.
    + destruct (e =? 0); repeat constructor; discriminate.
    + eapply Forall_impl; [|exact Hin]. intros en. apply calls_inside. lia.
    + eapply Forall_impl; [|apply epoch_checkpoint_trace_calls].
      intros en. apply calls_inside. lia.
    + repeat constructor; discriminate.
Qed.

Lemma blocks_from_blocks cfg blocks :
  Forall (epoch_block cfg) blocks ->
  forall rest,
    blocks_from None (blocks_trace blocks ++ rest) = blocks ++ blocks_from None rest.
Proof.
  induction 1 as [|[e b] blocks Hb _ IH]; intros rest; [reflexivity|].
  apply epoch_block_split in Hb. destruct Hb as (work & -> & Hw).
  unfold blocks_trace in *. simpl. rewrite <- !app_assoc.
  rewrite (blocks_from_inside _ Hw). simpl. rewrite IH. reflexivity.
Qed.

Lemma calls_is_call_all lo hi t :
  Forall (calls lo hi) t -> Forall (fun en => is_call en = true) t.
Proof. apply Forall_impl. intros en. apply calls_is_call. Qed.

Lemma blocks_from_calls lo hi t :
  Forall (calls lo hi) t -> blocks_from None t = [].
Proof.
  intros H. rewrite <- (app_nil_r t).
  rewrite blocks_from_outside by (eapply calls_is_call_all; exact H). reflexivity.
Qed.

(** ** A run that reaches the end of the script *)

Lemma run_completed cfg env :
  outcome cfg env = Ret tt ->
  exists t0 blocks fin DEVICE dir,
    trace cfg env = run_trace cfg env t0 blocks fin DEVICE dir /\
    Forall (calls 37 59) t0 /\
    Forall (epoch_block cfg) blocks /\
    map fst blocks = (if TRAIN cfg then range (EPOCHS cfg) else []) /\
    ((SAVE_CKPTS cfg = false /\ fin = []) \/
     (SAVE_CKPTS cfg = true /\ 1 <= EPOCHS cfg /\ CKPT_FREQ cfg <> 0 /\
      fin = final_checkpoint_trace cfg (EPOCHS cfg - 1)) \/
     (TRAIN cfg = false /\ fin = [])) /\
    (dir = [(177%nat, os_path_isdir "exported")] \/
     dir = [(177%nat, os_path_isdir "exported"); (178%nat, os_makedirs "exported")]).
Proof.
  intros Hret.
  destruct (run_parts cfg env)
    as (t0 & t1 & t2 & t3 & Ht & L0 & _ & _ & _ & _ & _ & _ & _ & _ & Hdone).
  destruct (Hdone Hret) as (D1 & D2 & DEVICE & D3). clear Hdone.
  unfold completed_when, run_trace in *. rewrite Ht. clear Ht.
  assert (exists blocks fin,
             t1 = (if TRAIN cfg
                   then train_prologue cfg ++ blocks_trace blocks ++ fin ++ train_epilogue
                   else []) /\
             Forall (epoch_block cfg) blocks /\
             map fst blocks = (if TRAIN cfg then range (EPOCHS cfg) else []) /\
             ((SAVE_CKPTS cfg = false /\ fin = []) \/
              (SAVE_CKPTS cfg = true /\ 1 <= EPOCHS cfg /\ CKPT_FREQ cfg <> 0 /\
               fin = final_checkpoint_trace cfg (EPOCHS cfg - 1)) \/
              (TRAIN cfg = false /\ fin = []))) as (blocks & fin & -> & Hb & Hm & Hf).
  { destruct (TRAIN cfg).
    - destruct D1 as [n D1]. apply train_mode_ret in D1.
      destruct D1 as (blocks & fin & -> & Hm & Hb & Hf).
      exists blocks, fin. repeat split; auto. tauto.
    - exists [], []. repeat split; auto. }
  assert (t2 = (if TEST cfg
                then test_prologue cfg ++ test_loop_trace cfg (testSet env) 0
                else [])) as ->.
  { destruct (TEST cfg); [|exact D2].
    destruct D2 as [n D2]. apply test_mode_ret in D2. exact D2. }
  assert (exists dir,
             t3 = (if EXPORT_MODEL cfg then export_trace cfg DEVICE dir else []) /\
             (dir = [(177%nat, os_path_isdir "exported"%string)] \/
              dir = [(177%nat, os_path_isdir "exported"%string);
                     (178%nat, os_makedirs "exported"%string)]))
    as (dir & -> & Hd).
  { destruct (EXPORT_MODEL cfg).
    - destruct D3 as [n D3]. apply export_mode_ret in D3.
      destruct D3 as (dir & -> & Hd). exists dir. auto.
    - exists [(177%nat, os_path_isdir "exported"%string)]. auto. }
  exists t0, blocks, fin, DEVICE, dir. repeat split; auto.
Qed.

(** ** Reading a trace line by line *)

Lemma at_line_app l t u : at_line l (t ++ u) = at_line l t ++ at_line l u.
Proof. unfold at_line. rewrite filter_app, map_app. reflexivity. Qed.

Lemma filter_none {A} (p : A -> bool) l :
  Forall (fun x => p x = false) l -> filter p l = [].
Proof.
  induction 1 as [|x l Hx _ IH]; [reflexivity|]. simpl. rewrite Hx. exact IH.
Qed.

Lemma filter_all {A} (p : A -> bool) l :
  Forall (fun x => p x = true) l -> filter p l = l.
Proof.
  induction 1 as [|x l Hx _ IH]; [reflexivity|]. simpl. rewrite Hx, IH. reflexivity.
Qed.

Lemma calls_between_out lo hi a b en :
  (hi < a)%nat \/ (b < lo)%nat -> calls lo hi en -> between a b en = false.
Proof.
  intros Hd H. apply calls_inv in H. destruct H as (Hl & _).
  destruct (between a b en) eqn:Hb; [|reflexivity].
  apply between_spec in Hb. lia.
Qed.

Lemma calls_between_in lo hi a b en :
  (a <= lo)%nat -> (hi <= b)%nat -> calls lo hi en -> between a b en = true.
Proof.
  intros Ha Hb H. apply calls_inv in H. destruct H as (Hl & _).
  apply between_spec. lia.
Qed.

Lemma filter_between_out lo hi a b t :
  (hi < a)%nat \/ (b < lo)%nat -> Forall (calls lo hi) t -> filter (between a b) t = [].
Proof.
  intros Hd H. apply filter_none. eapply Forall_impl; [|exact H].
  intros en. apply calls_between_out. exact Hd.
Qed.

Lemma at_line_out lo hi l t :
  (l < lo)%nat \/ (hi < l)%nat -> Forall (calls lo hi) t -> at_line l t = [].
Proof.
  intros Hd H. unfold at_line. rewrite filter_none; [reflexivity|].
  eapply Forall_impl; [|exact H]. intros en Hc.
  apply calls_inv in Hc. destruct Hc as (Hl & _). apply Nat.eqb_neq. lia.
Qed.

Lemma at_line_off lo hi l t :
  (l < lo)%nat \/ (hi < l)%nat -> Forall (lines lo hi) t -> at_line l t = [].
Proof.
  intros Hd H. unfold at_line. rewrite filter_none; [reflexivity|].
  eapply Forall_impl; [|exact H]. intros en Hc.
  apply between_spec in Hc. apply Nat.eqb_neq. lia.
Qed.

Lemma train_prologue_calls cfg : Forall (calls 68 74) (train_prologue cfg).
Proof. repeat constructor. Qed.

Lemma train_epilogue_calls : Forall (calls 142 143) train_epilogue.
Proof. repeat constructor. Qed.

Lemma test_prologue_calls cfg : Forall (calls 147 157) (test_prologue cfg).
Proof. repeat constructor. Qed.

Lemma test_loop_trace_calls cfg items :
  forall i, Forall (calls 157 163) (test_loop_trace cfg items i).
Proof.
  induction items as [|d items IH]; intros i; simpl.
  - repeat constructor.
  - constructor; [reflexivity|].
    destruct (i <? TEST_SAMPLE cfg); [|constructor].
    repeat (constructor; [reflexivity|]). apply IH.
Qed.

Lemma export_trace_calls cfg DEVICE dir :
  dir = [(177%nat, os_path_isdir "exported")] \/
  dir = [(177%nat, os_path_isdir "exported"); (178%nat, os_makedirs "exported")] ->
  Forall (calls 169 183) (export_trace cfg DEVICE dir).
Proof. intros [-> | ->]; repeat constructor. Qed.

Lemma calls_weaken lo hi lo' hi' t :
  (lo' <= lo)%nat -> (hi <= hi')%nat -> Forall (calls lo hi) t -> Forall (calls lo' hi') t.
Proof.
  intros Hlo Hhi. apply Forall_impl. intros en H.
  apply calls_inv in H. destruct H as (Hl & Hc & Hp).
  unfold calls. rewrite Hc, Hp, !andb_true_r. apply between_spec. lia.
Qed.

(** The entries of a completed run after training: only calls, all from
    lines 132-183. *)
Lemma fin_calls cfg fin :
  (SAVE_CKPTS cfg = false /\ fin = []) \/
  (SAVE_CKPTS cfg = true /\ 1 <= EPOCHS cfg /\ CKPT_FREQ cfg <> 0 /\
   fin = final_checkpoint_trace cfg (EPOCHS cfg - 1)) \/
  (TRAIN cfg = false /\ fin = []) ->
  Forall (calls 132 139) fin.
Proof.
  intros [[_ ->]|[(_ & _ & _ & ->)|[_ ->]]];
    [constructor | apply final_checkpoint_trace_calls | constructor].
Qed.

Lemma epoch_block_body cfg e b :
  epoch_block cfg (e, b) -> Forall (calls 79 127) b.
Proof.
  intros (ti & inner & Hb & Hin). simpl in Hb. subst b. unfold epoch_trace.
  repeat (apply Forall_app; split).
  - repeat constructor.
  - destruct (e =? 0); repeat constructor.
  - apply (calls_weaken 87 111); [lia|lia|exact Hin].
  - apply (calls_weaken 115 123); [lia|lia|apply epoch_checkpoint_trace_calls].
  - repeat constructor.
Qed.

(** ** Reading a trace by operation *)

(** An observation that only looks at operations whose lines lie outside
    [lo .. hi] sees nothing in calls made from [lo .. hi]. *)
Lemma flat_map_out {B} (f : Entry -> list B) lo hi t :
  (forall l ev, f (l, ev) = [] \/ off_lines lo hi ev = true) ->
  Forall (calls lo hi) t -> flat_map f t = [].
Proof.
  intros Hf. induction 1 as [|[l ev] t Hc _ IH]; [reflexivity|].
  simpl. rewrite IH, app_nil_r.
  destruct (Hf l ev) as [E|E]; [exact E|].
  exfalso. apply calls_inv in Hc. destruct Hc as (Hl & _ & Hp).
  unfold placed in Hp. apply existsb_exists in Hp.
  destruct Hp as (l' & Hin & Heq). apply Nat.eqb_eq in Heq.
  simpl in Heq, Hl, Hin. subst l'.
  unfold off_lines in E. rewrite forallb_forall in E. specialize (E _ Hin).
  apply negb_true_iff, andb_false_iff in E. rewrite !Nat.leb_gt in E. lia.
Qed.

Ltac off_side :=
  let ev := fresh "ev" in
  intros ? ev; destruct ev; first [left; reflexivity | right; reflexivity].

Lemma filter_flat_map {A} (p : A -> bool) l :
  filter p l = flat_map (fun x => if p x then [x] else []) l.
Proof.
  induction l as [|x l IH]; [reflexivity|].
  simpl. rewrite IH. destruct (p x); reflexivity.
Qed.

Lemma flat_map_fst {A B C} (h : A -> list C) (l : list (A * B)) :
  flat_map (fun eb => h (fst eb)) l = flat_map h (map fst l).
Proof.
  induction l as [|x l IH]; [reflexivity|]. simpl. rewrite IH. reflexivity.
Qed.

Lemma flat_map_run_trace {B} (f : Entry -> list B) cfg env t0 blocks fin DEVICE dir :
  flat_map f (run_trace cfg env t0 blocks fin DEVICE dir) =
  flat_map f t0 ++
  (if TRAIN cfg
   then flat_map f (train_prologue cfg) ++ flat_map f (blocks_trace blocks) ++
        flat_map f fin ++ flat_map f train_epilogue
   else []) ++
  (if TEST cfg
   then flat_map f (test_prologue cfg) ++
        flat_map f (test_loop_trace cfg (testSet env) 0)
   else []) ++
  (if EXPORT_MODEL cfg then flat_map f (export_trace cfg DEVICE dir) else []).
Proof.
  unfold run_trace. rewrite !flat_map_app.
  destruct (TRAIN cfg), (TEST cfg), (EXPORT_MODEL cfg);
    rewrite ?flat_map_app; reflexivity.
Qed.

Lemma flat_map_blocks {B} (f : Entry -> list B) blocks :
  flat_map f (blocks_trace blocks) =
  flat_map (fun eb => f (78%nat, for_epoch (fst eb)) ++ flat_map f (snd eb)) blocks.
Proof.
  unfold blocks_trace. induction blocks as [|eb blocks IH]; [reflexivity|].
  cbn [flat_map]. rewrite flat_map_app. f_equal. exact IH.
Qed.

Lemma flat_map_blocks_out {B} (f : Entry -> list B) cfg blocks :
  (forall l ev, f (l, ev) = [] \/ off_lines 79 127 ev = true) ->
  (forall e, f (78%nat, for_epoch e) = []) ->
  Forall (epoch_block cfg) blocks -> flat_map f (blocks_trace blocks) = [].
Proof.
  intros Hf H78 Hb. rewrite flat_map_blocks.
  induction Hb as [|[e b] blocks Hb _ IH]; [reflexivity|].
  simpl. rewrite H78, IH, app_nil_r.
  apply (flat_map_out f 79 127); [exact Hf|].
  apply (epoch_block_body cfg e). exact Hb.
Qed.

(** What an observation sees in one completed epoch. *)
Lemma flat_map_epoch_block {B} (f : Entry -> list B) cfg e b :
  (forall l ev, f (l, ev) = [] \/ off_lines 87 111 ev = true) ->
  epoch_block cfg (e, b) ->
  exists ti,
    flat_map f b =
    f (79%nat, time_time) ++ f (80%nat, time_time) ++
    (if e =? 0 then [] else f (84%nat, model_update_learning_rate)) ++
    flat_map f (epoch_checkpoint_trace cfg e ti) ++
    f (127%nat, time_time) ++ f (126%nat, print (EndOfEpoch e (EPOCHS cfg))).
Proof.
  intros Hf (ti & inner & Hb & Hin). simpl in Hb. subst b. exists ti.
  unfold epoch_trace. rewrite !flat_map_app.
  rewrite (flat_map_out f 87 111 inner Hf Hin).
  destruct (e =? 0); simpl; rewrite ?app_nil_r, <- ?app_assoc; reflexivity.
Qed.

(** *** The parts of a completed run *)

Lemma test_part_calls cfg env :
  Forall (calls 147 163)
    (if TEST cfg then test_prologue cfg ++ test_loop_trace cfg (testSet env) 0 else []).
Proof.
  destruct (TEST cfg); [|constructor]. apply Forall_app. split.
  - apply (calls_weaken 147 157); [lia|lia|apply test_prologue_calls].
  - apply (calls_weaken 157 163); [lia|lia|apply test_loop_trace_calls].
Qed.

Lemma export_part_calls cfg DEVICE dir :
  dir = [(177%nat, os_path_isdir "exported")] \/
  dir = [(177%nat, os_path_isdir "exported"); (178%nat, os_makedirs "exported")] ->
  Forall (calls 169 183) (if EXPORT_MODEL cfg then export_trace cfg DEVICE dir else []).
Proof.
  intros Hd. destruct (EXPORT_MODEL cfg); [|constructor].
  apply export_trace_calls. exact Hd.
Qed.

Lemma blocks_trace_lines cfg blocks :
  Forall (epoch_block cfg) blocks -> Forall (lines 78 127) (blocks_trace blocks).
Proof.
  unfold blocks_trace. induction 1 as [|[e b] blocks Hb _ IH]; [constructor|].
  simpl. constructor; [reflexivity|]. apply Forall_app. split; [|exact IH].
  eapply Forall_impl; [|apply (epoch_block_body cfg e b Hb)].
  intros en Hc. apply calls_inv in Hc. apply between_spec. lia.
Qed.

Lemma epoch_blocks_run_trace cfg env t0 blocks fin DEVICE dir :
  Forall (calls 37 59) t0 ->
  Forall (epoch_block cfg) blocks ->
  map fst blocks = (if TRAIN cfg then range (EPOCHS cfg) else []) ->
  Forall (calls 132 139) fin ->
  dir = [(177%nat, os_path_isdir "exported")] \/
  dir = [(177%nat, os_path_isdir "exported"); (178%nat, os_makedirs "exported")] ->
  epoch_blocks (run_trace cfg env t0 blocks fin DEVICE dir) = blocks.
Proof.
  intros H0 Hb Hm Hfin Hd. unfold epoch_blocks, run_trace.
  rewrite blocks_from_outside by (eapply calls_is_call_all; exact H0).
  pose proof (test_part_calls cfg env) as H2.
  pose proof (export_part_calls cfg DEVICE dir Hd) as H3.
  assert (Hrest : forall t, Forall (calls 132 143) t ->
            blocks_from None
              (t ++ (if TEST cfg
                     then test_prologue cfg ++ test_loop_trace cfg (testSet env) 0
                     else []) ++
               (if EXPORT_MODEL cfg then export_trace cfg DEVICE dir else [])) = []).
  { intros t Ht. apply (blocks_from_calls 132 183).
    repeat (apply Forall_app; split).
    - apply (calls_weaken 132 143); [lia|lia|exact Ht].
    - apply (calls_weaken 147 163); [lia|lia|exact H2].
    - apply (calls_weaken 169 183); [lia|lia|exact H3]. }
  destruct (TRAIN cfg).
  - rewrite <- !app_assoc.
    rewrite blocks_from_outside
      by (eapply calls_is_call_all; apply train_prologue_calls).
    rewrite (blocks_from_blocks cfg blocks Hb).
    rewrite (app_assoc fin), Hrest; [apply app_nil_r|].
    apply Forall_app. split.
    + apply (calls_weaken 132 139); [lia|lia|exact Hfin].
    + apply (calls_weaken 142 143); [lia|lia|apply train_epilogue_calls].
  - destruct blocks; [|discriminate]. apply (Hrest []). constructor.
Qed.

Lemma calls_lines_all lo hi t : Forall (calls lo hi) t -> Forall (lines lo hi) t.
Proof. apply Forall_impl. intros en. apply calls_lines. Qed.

(** *** The entries of the test pass and of the export *)

Lemma filter_between_off lo hi a b t :
  (hi < a)%nat \/ (b < lo)%nat -> Forall (lines lo hi) t -> filter (between a b) t = [].
Proof.
  intros Hd H. apply filter_none. eapply Forall_impl; [|exact H].
  intros en Hl. apply between_spec in Hl.
  destruct (between a b en) eqn:E; [|reflexivity].
  apply between_spec in E. lia.
Qed.

Lemma filter_between_in lo hi a b t :
  (a <= lo)%nat -> (hi <= b)%nat -> Forall (calls lo hi) t -> filter (between a b) t = t.
Proof.
  intros Ha Hb H. apply filter_all. eapply Forall_impl; [|exact H].
  intros en. apply calls_between_in; assumption.
Qed.

Lemma train_part_lines cfg blocks fin :
  Forall (epoch_block cfg) blocks ->
  Forall (calls 132 139) fin ->
  Forall (lines 68 143)
    (if TRAIN cfg
     then train_prologue cfg ++ blocks_trace blocks ++ fin ++ train_epilogue
     else []).
Proof.
  intros Hb Hfin. destruct (TRAIN cfg); [|constructor].
  repeat (apply Forall_app; split).
  - apply calls_lines_all. apply (calls_weaken 68 74); [lia|lia|].
    apply train_prologue_calls.
  - eapply Forall_impl; [|apply (blocks_trace_lines cfg blocks Hb)].
    intros en. apply lines_weaken; lia.
  - apply calls_lines_all. apply (calls_weaken 132 139); [lia|lia|exact Hfin].
  - apply calls_lines_all. apply (calls_weaken 142 143); [lia|lia|].
    apply train_epilogue_calls.
Qed.

Lemma test_pass_run_trace cfg env t0 blocks fin DEVICE dir :
  Forall (calls 37 59) t0 ->
  Forall (epoch_block cfg) blocks ->
  Forall (calls 132 139) fin ->
  dir = [(177%nat, os_path_isdir "exported")] \/
  dir = [(177%nat, os_path_isdir "exported"); (178%nat, os_makedirs "exported")] ->
  test_pass (run_trace cfg env t0 blocks fin DEVICE dir) =
  if TEST cfg then test_prologue cfg ++ test_loop_trace cfg (testSet env) 0 else [].
Proof.
  intros H0 Hb Hfin Hd. unfold test_pass, run_trace. rewrite !filter_app.
  rewrite (filter_between_out 37 59 145 165 t0) by (lia || exact H0).
  rewrite (filter_between_off 68 143 145 165)
    by (lia || apply train_part_lines; assumption).
  rewrite (filter_between_in 147 163 145 165)
    by (lia || apply test_part_calls).
  rewrite (filter_between_out 169 183 145 165)
    by (lia || apply export_part_calls; exact Hd).
  apply app_nil_r.
Qed.

Lemma export_pass_run_trace cfg env t0 blocks fin DEVICE dir :
  Forall (calls 37 59) t0 ->
  Forall (epoch_block cfg) blocks ->
  Forall (calls 132 139) fin ->
  dir = [(177%nat, os_path_isdir "exported")] \/
  dir = [(177%nat, os_path_isdir "exported"); (178%nat, os_makedirs "exported")] ->
  export_pass (run_trace cfg env t0 blocks fin DEVICE dir) =
  if EXPORT_MODEL cfg then export_trace cfg DEVICE dir else [].
Proof.
  intros H0 Hb Hfin Hd. unfold export_pass, run_trace. rewrite !filter_app.
  rewrite (filter_between_out 37 59 167 183 t0) by (lia || exact H0).
  rewrite (filter_between_off 68 143 167 183)
    by (lia || apply train_part_lines; assumption).
  rewrite (filter_between_out 147 163 167 183)
    by (lia || apply test_part_calls).
  rewrite (filter_between_in 169 183 167 183)
    by (lia || apply export_part_calls; exact Hd).
  reflexivity.
Qed.

Lemma if_nil {A} (b : bool) : (if b then @nil A else []) = [].
Proof. destruct b; reflexivity. Qed.

(** Unpacks a completed run into its parts and what is known of each. *)
Ltac completed cfg env H :=
  destruct (run_completed cfg env H)
    as (t0 & blocks & fin & DEVICE & dir & Htr & H0 & Hb & Hm & Hf & Hd);
  pose proof (fin_calls cfg fin Hf) as Hfin;
  pose proof (epoch_blocks_run_trace cfg env t0 blocks fin DEVICE dir H0 Hb Hm Hfin Hd)
    as Hblocks;
  pose proof (train_prologue_calls cfg) as Hpro;
  pose proof train_epilogue_calls as Hepi;
  pose proof (test_prologue_calls cfg) as Htpro;
  pose proof (test_loop_trace_calls cfg (testSet env) 0) as Htloop;
  pose proof (export_trace_calls cfg DEVICE dir Hd) as Hexp;
  pose proof (blocks_trace_lines cfg blocks Hb) as Hbl;
  pose proof (test_part_calls cfg env) as Htest;
  pose proof (export_part_calls cfg DEVICE dir Hd) as Hexport;
  pose proof (train_part_lines cfg blocks fin Hb Hfin) as Htrainpart;
  pose proof (test_pass_run_trace cfg env t0 blocks fin DEVICE dir H0 Hb Hfin Hd)
    as Htestpass;
  pose proof (export_pass_run_trace cfg env t0 blocks fin DEVICE dir H0 Hb Hfin Hd)
    as Hexportpass;
  rewrite ?Htr.

(** The same for the events of one line. *)
Ltac project_line :=
  rewrite ?at_line_app;
  repeat match goal with
    | H : Forall (calls ?lo ?hi) ?t |- context [at_line ?l ?t] =>
        rewrite (at_line_out lo hi l t ltac:(lia) H)
    | H : Forall (lines ?lo ?hi) ?t |- context [at_line ?l ?t] =>
        rewrite (at_line_off lo hi l t ltac:(lia) H)
    end;
  cbn [app]; rewrite ?app_nil_r.

(** Drops from an observation of a completed run the parts it cannot see. *)
Ltac project :=
  rewrite ?flat_map_run_trace;
  repeat match goal with
    | H : Forall (calls ?lo ?hi) ?t |- context [flat_map ?f ?t] =>
        rewrite (flat_map_out f lo hi t ltac:(off_side) H)
    | H : Forall (epoch_block ?cfg) ?blocks
      |- context [flat_map ?f (blocks_trace ?blocks)] =>
        rewrite (flat_map_blocks_out f cfg blocks
                   ltac:(off_side) ltac:(intros; reflexivity) H)
    end;
  cbn [app]; rewrite ?if_nil, ?app_nil_r.

Lemma epochs_bound_blocks cfg blocks :
  Forall (epoch_block cfg) blocks -> epochs_bound (blocks_trace blocks) = map fst blocks.
Proof.
  intros Hb. unfold epochs_bound. rewrite flat_map_blocks.
  induction Hb as [|[e b] blocks Hb _ IH]; [reflexivity|].
  change (map fst ((e, b) :: blocks)) with ([e] ++ map fst blocks).
  cbn [flat_map]. f_equal; [|exact IH].
  simpl. f_equal. apply (flat_map_out _ 79 127); [off_side|].
  apply (epoch_block_body cfg e). exact Hb.
Qed.

Lemma mode_of_lines lo hi k en :
  mode_of_line lo = k -> mode_of_line hi = k -> lines lo hi en -> mode_of en = k.
Proof.
  unfold mode_of, mode_of_line, lines. rewrite between_spec.
  intros Hlo Hhi Hl.
  repeat match goal with
    | H : context [Nat.leb ?a ?b] |- _ => destruct (Nat.leb_spec a b)
    | |- context [Nat.leb ?a ?b] => destruct (Nat.leb_spec a b)
    end; lia.
Qed.

Lemma mode_of_all lo hi k t :
  mode_of_line lo = k -> mode_of_line hi = k ->
  Forall (lines lo hi) t -> Forall (fun en => mode_of en = k) t.
Proof.
  intros Hlo Hhi. apply Forall_impl. intros en. apply mode_of_lines; assumption.
Qed.

(** * The claims *)

(** C1: in a run with TRAIN set that reaches the end of the script, the
    loop variable [epoch] is bound to 0, 1, ..., EPOCHS-1, each once and in
    increasing order; the run cuts into one completed block per epoch; and
    every call of [model.optimize_parameters] lies in one of these blocks. *)
Theorem training_runs_every_epoch cfg env :
  TRAIN cfg = true -> outcome cfg env = Ret tt ->
  epochs_bound (trace cfg env) = range (EPOCHS cfg) /\
  length (epochs_bound (trace cfg env)) = Z.to_nat (EPOCHS cfg) /\
  (forall k, (k < Z.to_nat (EPOCHS cfg))%nat ->
             nth_error (epochs_bound (trace cfg env)) k = Some (Z.of_nat k)) /\
  NoDup (epochs_bound (trace cfg env)) /\
  (forall e, In e (epochs_bound (trace cfg env)) <-> 0 <= e < EPOCHS cfg) /\
  map fst (epoch_blocks (trace cfg env)) = range (EPOCHS cfg) /\
  Forall (epoch_block cfg) (epoch_blocks (trace cfg env)) /\
  filter is_optimize_parameters (trace cfg env) =
    flat_map (fun eb => filter is_optimize_parameters (snd eb))
             (epoch_blocks (trace cfg env)).
Proof.
  intros Htrain Hret. completed cfg env Hret. rewrite Htrain in Hm.
  assert (He : epochs_bound (run_trace cfg env t0 blocks fin DEVICE dir)
               = range (EPOCHS cfg)).
  { unfold epochs_bound. project. rewrite Htrain.
    etransitivity; [apply (epochs_bound_blocks cfg blocks Hb)|exact Hm]. }
  rewrite He, Hblocks.
  split; [reflexivity|].
  split; [apply length_range|].
  split; [apply nth_error_range|].
  split; [apply NoDup_range|].
  split; [exact (fun e => In_range e (EPOCHS cfg))|].
  split; [exact Hm|].
  split; [exact Hb|].
  rewrite filter_flat_map. project. rewrite Htrain, flat_map_blocks.
  apply flat_map_ext. intros eb. rewrite filter_flat_map. reflexivity.
Qed.

(** C5: every run is module-level work, then training work, then test
    work, then export work, in this order; the part of an unset flag is
    empty; when training is followed by anything, it has run to its end,
    plot included; when the test pass is followed by the export, it has
    run to its end. *)
Theorem modes_run_in_order cfg env :
  exists t0 t1 t2 t3,
    trace cfg env = t0 ++ t1 ++ t2 ++ t3 /\
    Forall (fun en => mode_of en = 0%nat) t0 /\
    Forall (fun en => mode_of en = 1%nat) t1 /\
    Forall (fun en => mode_of en = 2%nat) t2 /\
    Forall (fun en => mode_of en = 3%nat) t3 /\
    (TRAIN cfg = false -> t1 = []) /\
    (TEST cfg = false -> t2 = []) /\
    (EXPORT_MODEL cfg = false -> t3 = []) /\
    (TRAIN cfg = true -> t2 ++ t3 <> [] ->
     exists blocks fin,
       t1 = train_prologue cfg ++ blocks_trace blocks ++ fin ++ train_epilogue /\
       map fst blocks = range (EPOCHS cfg)) /\
    (TEST cfg = true -> t3 <> [] ->
     t2 = test_prologue cfg ++ test_loop_trace cfg (testSet env) 0).
Proof.
  destruct (run_parts cfg env)
    as (t0 & t1 & t2 & t3 & Ht & L0 & L1 & L2 & L3 & N1 & N2 & N3 & D1 & D2 & _).
  exists t0, t1, t2, t3.
  split; [exact Ht|].
  split; [apply (mode_of_all 37 59); [reflexivity|reflexivity|];
          apply calls_lines_all; exact L0|].
  split; [apply (mode_of_all 68 143); [reflexivity|reflexivity|exact L1]|].
  split; [apply (mode_of_all 147 163); [reflexivity|reflexivity|];
          apply calls_lines_all; exact L2|].
  split; [apply (mode_of_all 169 183); [reflexivity|reflexivity|];
          apply calls_lines_all; exact L3|].
  repeat split; try assumption.
  - intros Htrain Hne. specialize (D1 Hne). unfold completed_when in D1.
    rewrite Htrain in D1. destruct D1 as [n D1].
    apply train_mode_ret in D1. destruct D1 as (blocks & fin & -> & Hm & _).
    exists blocks, fin. split; [reflexivity|exact Hm].
  - intros Htest Hne. specialize (D2 Hne). unfold completed_when in D2.
    rewrite Htest in D2. destruct D2 as [n D2].
    apply test_mode_ret in D2. exact D2.
Qed.

(** C7: nothing in the script catches an exception: when a delegated call
    raises, its entry is the last of the trace and the run ends with that
    exception. *)
Theorem raising_call_ends_run cfg env k en :
  nth_error (trace cfg env) k = Some en ->
  is_call en = true ->
  raises env k = true ->
  S k = length (trace cfg env) /\ outcome cfg env = Raise (Delegated k).
Proof.
  intros Hk Hc Hr. apply (fail_stop_main cfg env 0%nat k en); assumption.
Qed.

(** *** Doubles of small integers *)

Lemma digits2_pos_size p : digits2_pos p = Pos.size p.
Proof. induction p; simpl; congruence. Qed.

Lemma digits2_pos_bound p : Zpos p < 2 ^ 53 -> 1 <= Zpos (digits2_pos p) <= 53.
Proof.
  intros H. rewrite digits2_pos_size. split; [lia|].
  pose proof (Pos.size_le p) as Hle.
  destruct (Z.le_gt_cases (Zpos (Pos.size p)) 53) as [|Hgt]; [assumption|exfalso].
  assert (Hpow : 2 ^ 54 <= 2 ^ Zpos (Pos.size p)) by (apply Z.pow_le_mono_r; lia).
  assert (2 ^ Zpos (Pos.size p) <= 2 * Zpos p).
  { change (2 * Zpos p) with (Zpos p~0). rewrite <- Pos2Z.inj_pow.
    apply Pos2Z.pos_le_pos. exact Hle. }
  change (2 ^ 54) with (2 * 2 ^ 53) in Hpow. lia.
Qed.

Lemma iter_xO_digits p k : digits2_pos (Pos.iter xO p k) = (digits2_pos p + k)%positive.
Proof.
  induction k using Pos.peano_ind.
  - simpl. lia.
  - rewrite Pos.iter_succ. simpl. rewrite IHk. lia.
Qed.

Lemma iter_xO_value p k : Zpos (Pos.iter xO p k) = Zpos p * 2 ^ Zpos k.
Proof.
  induction k using Pos.peano_ind.
  - simpl. lia.
  - rewrite Pos.iter_succ, Pos2Z.inj_xO, IHk, Pos2Z.inj_succ, Z.pow_succ_r by lia. lia.
Qed.

(** A mantissa of 53 bits with an exponent in range is kept as it is. *)
Lemma binary_round_aux_exact s m e :
  Zpos (digits2_pos m) = 53 -> -1074 <= e <= 971 ->
  binary_round_aux 53 1024 s (Zpos m) e loc_Exact = S754_finite s m e.
Proof.
  intros Hd He. unfold binary_round_aux, shr_fexp, fexp, emin.
  cbn [Zdigits2 shr_record_of_loc]. rewrite Hd.
  replace (Z.max (53 + e - 53) (3 - 1024 - 53) - e) with 0 by lia.
  cbn [shr shr_m loc_of_shr_record round_nearest_even Zdigits2 shr_record_of_loc].
  rewrite Hd.
  replace (Z.max (53 + e - 53) (3 - 1024 - 53) - e) with 0 by lia.
  cbn [shr shr_m].
  destruct (Z.leb_spec e (1024 - 53)); [reflexivity|lia].
Qed.

(** Below 2^53 rounding changes nothing: the mantissa is only shifted. *)
Lemma binary_round_small s p e :
  Zpos p < 2 ^ 53 -> -1 <= e <= 0 ->
  exists m e',
    binary_round 53 1024 s p e = S754_finite s m e' /\
    e' <= e /\ Zpos m = Zpos p * 2 ^ (e - e').
Proof.
  intros Hp He. pose proof (digits2_pos_bound p Hp) as Hd.
  unfold binary_round, shl_align, fexp, emin.
  replace (Z.max (Zpos (digits2_pos p) + e - 53) (3 - 1024 - 53))
    with (Zpos (digits2_pos p) + e - 53) by lia.
  destruct (Zpos (digits2_pos p) + e - 53 - e) as [|k|k] eqn:Ek; try lia.
  - exists p, e. rewrite binary_round_aux_exact by lia.
    repeat split; try lia. rewrite Z.sub_diag. lia.
  - exists (Pos.iter xO p k), (Zpos (digits2_pos p) + e - 53).
    rewrite binary_round_aux_exact.
    + repeat split; try lia. rewrite iter_xO_value. f_equal. f_equal. lia.
    + rewrite iter_xO_digits. lia.
    + lia.
Qed.

Lemma int_to_float_small n : Z.abs n < 2 ^ 53 -> is_finite (int_to_float n) = true.
Proof.
  intros H. unfold int_to_float, binary_normalize. destruct n as [|p|p];
    [reflexivity| |].
  - destruct (binary_round_small false p 0) as (m & e' & -> & _); [lia|lia|reflexivity].
  - destruct (binary_round_small true p 0) as (m & e' & -> & _); [lia|lia|reflexivity].
Qed.

(** For |n| < 2^53 the double [n / 2] is finite and stands for n/2. *)
Lemma truediv_2_small n :
  Z.abs n < 2 ^ 53 ->
  is_finite (truediv_2 n) = true /\
  exists q, float_value (truediv_2 n) = Some q /\ Qeq q (n # 2).
Proof.
  intros H. unfold truediv_2, binary_normalize. destruct n as [|p|p].
  - split; [reflexivity|]. exists (0 # 1). split; reflexivity.
  - destruct (binary_round_small false p (-1)) as (m & e' & -> & He & Hm);
      [lia|lia|].
    split; [reflexivity|]. eexists. split; [reflexivity|].
    unfold Qeq. cbn [Qnum Qden].
    rewrite Z.max_r, Z.max_l by lia. rewrite Z2Pos.id by (apply Z.pow_pos_nonneg; lia).
    rewrite Hm. replace (- e') with (Z.succ (-1 - e')) by lia.
    rewrite Z.pow_succ_r by lia. lia.
  - destruct (binary_round_small true p (-1)) as (m & e' & -> & He & Hm);
      [lia|lia|].
    split; [reflexivity|]. eexists. split; [reflexivity|].
    unfold Qeq. cbn [Qnum Qden].
    rewrite Z.max_r, Z.max_l by lia. rewrite Z2Pos.id by (apply Z.pow_pos_nonneg; lia).
    replace (- e') with (Z.succ (-1 - e')) by lia.
    rewrite Z.pow_succ_r by lia.
    change (Zneg m) with (- Zpos m). change (Zneg p) with (- Zpos p). rewrite Hm. lia.
Qed.

(** *** What each epoch saves and updates *)

Lemma filter_kind_out (p : Entry -> bool) lo hi t :
  (forall l ev, p (l, ev) = false \/ off_lines lo hi ev = true) ->
  Forall (calls lo hi) t -> filter p t = [].
Proof.
  intros Hp Ht. rewrite filter_flat_map. apply (flat_map_out _ lo hi); [|exact Ht].
  intros l ev. destruct (Hp l ev) as [E|E]; [left; rewrite E; reflexivity|right; exact E].
Qed.

Lemma flat_map_ext_Forall {A B} (f g : A -> list B) l :
  Forall (fun a => f a = g a) l -> flat_map f l = flat_map g l.
Proof.
  induction 1 as [|a l Ha _ IH]; [reflexivity|]. simpl. rewrite Ha, IH. reflexivity.
Qed.

Ltac in_block H :=
  match type of H with
  | epoch_block ?cfg (?e, ?b) =>
      match goal with
      | |- flat_map ?f b = _ =>
          let Heq := fresh "Heq" in
          destruct (flat_map_epoch_block f cfg e b ltac:(off_side) H) as [ti Heq];
          etransitivity; [exact Heq|]; clear Heq
      end
  end.

Lemma checkpoints_saved_block cfg e b :
  epoch_block cfg (e, b) ->
  checkpoints_saved b =
  if andb (SAVE_CKPTS cfg) (e mod CKPT_FREQ cfg =? 0) then [e] else [].
Proof.
  intros H. unfold checkpoints_saved.
  in_block H.
  unfold epoch_checkpoint_trace.
  destruct (e =? 0), (SAVE_CKPTS cfg && (e mod CKPT_FREQ cfg =? 0))%bool,
    (SAVE_IMG_CKPT cfg); reflexivity.
Qed.

Lemma images_saved_block cfg e b :
  epoch_block cfg (e, b) ->
  images_saved b =
  if andb (andb (SAVE_CKPTS cfg) (e mod CKPT_FREQ cfg =? 0)) (SAVE_IMG_CKPT cfg)
  then [epoch_image cfg e] else [].
Proof.
  intros H. unfold images_saved.
  in_block H.
  unfold epoch_checkpoint_trace.
  destruct (e =? 0), (SAVE_CKPTS cfg && (e mod CKPT_FREQ cfg =? 0))%bool,
    (SAVE_IMG_CKPT cfg); reflexivity.
Qed.

Lemma updates_block cfg e b :
  epoch_block cfg (e, b) ->
  filter is_update_learning_rate b =
  if e =? 0 then [] else [(84%nat, model_update_learning_rate)].
Proof.
  intros H. rewrite filter_flat_map.
  in_block H.
  match goal with
  | |- context [flat_map ?f (epoch_checkpoint_trace cfg e ti)] =>
      rewrite (flat_map_out f 115 123 _ ltac:(off_side)
                 (epoch_checkpoint_trace_calls cfg e ti))
  end.
  destruct (e =? 0); reflexivity.
Qed.

Lemma checkpoints_saved_blocks cfg blocks :
  SAVE_CKPTS cfg = true ->
  Forall (epoch_block cfg) blocks ->
  checkpoints_saved (blocks_trace blocks) =
  filter (fun e => e mod CKPT_FREQ cfg =? 0) (map fst blocks).
Proof.
  intros Hs Hb. unfold checkpoints_saved. rewrite flat_map_blocks.
  rewrite (filter_flat_map _ (map fst blocks)), <- flat_map_fst.
  apply flat_map_ext_Forall. eapply Forall_impl; [|exact Hb].
  intros [e b] H. cbn [fst snd app].
  etransitivity; [apply (checkpoints_saved_block cfg e b H)|].
  rewrite Hs. reflexivity.
Qed.

Lemma updates_blocks cfg blocks :
  Forall (epoch_block cfg) blocks ->
  filter is_update_learning_rate (blocks_trace blocks) =
  flat_map (fun e => if e =? 0 then [] else [(84%nat, model_update_learning_rate)])
           (map fst blocks).
Proof.
  intros Hb. rewrite filter_flat_map, flat_map_blocks, <- flat_map_fst.
  apply flat_map_ext_Forall. eapply Forall_impl; [|exact Hb].
  intros [e b] H. cbn [fst snd app].
  rewrite <- filter_flat_map. apply (updates_block cfg e b H).
Qed.

Lemma count_nonzero_from {B} (x : B) m :
  forall s, (1 <= s)%nat ->
    length (flat_map (fun e => if e =? 0 then [] else [x]) (map Z.of_nat (seq s m))) = m.
Proof.
  induction m as [|m IH]; intros s Hs; [reflexivity|].
  cbn [seq map flat_map]. rewrite length_app, IH by lia.
  destruct (Z.eqb_spec (Z.of_nat s) 0); [lia|reflexivity].
Qed.

Lemma count_nonzero_range {B} (x : B) n :
  length (flat_map (fun e => if e =? 0 then [] else [x]) (range n)) = Z.to_nat (n - 1).
Proof.
  unfold range. destruct (Z.to_nat n) as [|m] eqn:E.
  - simpl. lia.
  - cbn [seq map flat_map]. rewrite length_app, count_nonzero_from by lia.
    simpl. lia.
Qed.

Lemma filter_range_last (p : Z -> bool) n :
  1 <= n -> p (n - 1) = true ->
  filter p (range n) = filter p (range (n - 1)) ++ [n - 1].
Proof.
  intros Hn Hp. replace n with ((n - 1) + 1) at 1 by lia.
  rewrite range_succ by lia. rewrite filter_app. simpl. rewrite Hp. reflexivity.
Qed.

(** C2: in a completed run with TRAIN and SAVE_CKPTS set, an epoch of the
    loop calls [model.save_network(epoch)] once, after its batches and just
    before its end-of-epoch report, when [epoch] is a multiple of
    CKPT_FREQ, and never otherwise; with SAVE_IMG_CKPT the image
    TEST_DIR/epoch_<epoch>.jpg is saved with it, and no other image. *)
Theorem checkpoint_cadence cfg env :
  TRAIN cfg = true -> SAVE_CKPTS cfg = true -> outcome cfg env = Ret tt ->
  map fst (epoch_blocks (trace cfg env)) = range (EPOCHS cfg) /\
  Forall (fun eb =>
    checkpoints_saved (snd eb) =
      (if fst eb mod CKPT_FREQ cfg =? 0 then [fst eb] else []) /\
    images_saved (snd eb) =
      (if andb (fst eb mod CKPT_FREQ cfg =? 0) (SAVE_IMG_CKPT cfg)
       then [epoch_image cfg (fst eb)] else []) /\
    (fst eb mod CKPT_FREQ cfg = 0 <-> (CKPT_FREQ cfg | fst eb)) /\
    exists work ti,
      Forall (calls 79 111) work /\
      snd eb =
        work ++
        (if fst eb mod CKPT_FREQ cfg =? 0 then
           [(115%nat, print (SavingEpoch (fst eb) ti));
            (116%nat, model_save_network (fst eb))] ++
           (if SAVE_IMG_CKPT cfg then
              [(120%nat, print (Literal "Saving current epoch test to test folder"%string));
               (121%nat, model_get_current_visuals);
               (123%nat, util_save_visuals (epoch_image cfg (fst eb)))]
            else [])
         else []) ++
        [(127%nat, time_time); (126%nat, print (EndOfEpoch (fst eb) (EPOCHS cfg)))])
    (epoch_blocks (trace cfg env)).
Proof.
  intros Htrain Hs Hret. completed cfg env Hret. rewrite Htrain in Hm.
  rewrite Hblocks. split; [exact Hm|].
  assert (Hfreq : CKPT_FREQ cfg <> 0).
  { destruct Hf as [[E _]|[(_ & _ & Hfreq & _)|[E _]]]; congruence. }
  eapply Forall_impl; [|exact Hb].
  intros [e b] H. cbn [fst snd].
  split; [rewrite (checkpoints_saved_block cfg e b H), Hs; reflexivity|].
  split; [rewrite (images_saved_block cfg e b H), Hs; reflexivity|].
  split; [apply Z.mod_divide; exact Hfreq|].
  destruct H as (ti & inner & Heq & Hin). cbn [fst snd] in Heq. subst b.
  exists ([(79%nat, time_time); (80%nat, time_time)] ++
          (if e =? 0 then [] else [(84%nat, model_update_learning_rate)]) ++ inner), ti.
  split.
  - repeat (apply Forall_app; split).
    + repeat constructor.
    + destruct (e =? 0); repeat constructor.
    + apply (calls_weaken 87 111); [lia|lia|exact Hin].
  - unfold epoch_trace, epoch_checkpoint_trace. rewrite Hs. cbn [andb].
    rewrite <- !app_assoc. reflexivity.
Qed.

(** A completed training pass has built its model: [EPOCHS / 2] did not
    overflow. *)
Lemma trained_finite cfg env :
  TRAIN cfg = true -> outcome cfg env = Ret tt ->
  is_finite (truediv_2 (EPOCHS cfg)) = true.
Proof.
  intros Htrain Hret.
  destruct (run_parts cfg env)
    as (t0 & t1 & t2 & t3 & _ & _ & _ & _ & _ & _ & _ & _ & _ & _ & Hdone).
  destruct (Hdone Hret) as (D1 & _). unfold completed_when in D1.
  rewrite Htrain in D1. destruct D1 as [n D1]. unfold train_mode in D1.
  ret_inv D1. assumption.
Qed.

(** C3, as the code has it: in a completed run with TRAIN set, the model
    of line 72 is built with n_epochs and n_epochs_decay both the float
    [EPOCHS / 2]: the double nearest to EPOCHS/2, which is finite, and is
    EPOCHS/2 itself when |EPOCHS| < 2^53; every epoch other than epoch 0
    starts with one call of [model.update_learning_rate], made before its
    batches, and epoch 0 makes none; so the run makes EPOCHS-1 such calls
    when EPOCHS is at least 1, and none when EPOCHS is 0 or less. *)
Theorem learning_rate_schedule cfg env :
  TRAIN cfg = true -> outcome cfg env = Ret tt ->
  at_line 72 (trace cfg env) =
    [Pix2PixModel (CKPT_DIR cfg) (MODEL_NAME cfg) true
       (truediv_2 (EPOCHS cfg)) (truediv_2 (EPOCHS cfg))] /\
  is_finite (truediv_2 (EPOCHS cfg)) = true /\
  (Z.abs (EPOCHS cfg) < 2 ^ 53 ->
   exists q, float_value (truediv_2 (EPOCHS cfg)) = Some q /\ Qeq q (EPOCHS cfg # 2)) /\
  Forall (fun eb =>
    filter is_update_learning_rate (snd eb) =
      (if fst eb =? 0 then [] else [(84%nat, model_update_learning_rate)]) /\
    exists rest,
      snd eb =
        [(79%nat, time_time); (80%nat, time_time)] ++
        (if fst eb =? 0 then [] else [(84%nat, model_update_learning_rate)]) ++ rest /\
      filter is_update_learning_rate rest = [])
    (epoch_blocks (trace cfg env)) /\
  length (filter is_update_learning_rate (trace cfg env)) = Z.to_nat (EPOCHS cfg - 1) /\
  (1 <= EPOCHS cfg ->
   Z.of_nat (length (filter is_update_learning_rate (trace cfg env))) = EPOCHS cfg - 1).
Proof.
  intros Htrain Hret. completed cfg env Hret. rewrite Htrain in Hm.
  assert (Hlen : length (filter is_update_learning_rate
                           (run_trace cfg env t0 blocks fin DEVICE dir))
                 = Z.to_nat (EPOCHS cfg - 1)).
  { rewrite filter_flat_map. project. rewrite Htrain.
    transitivity (length (filter is_update_learning_rate (blocks_trace blocks)));
      [f_equal; symmetry; apply filter_flat_map|].
    rewrite (updates_blocks cfg blocks Hb), Hm. apply count_nonzero_range. }
  rewrite Hblocks, Hlen.
  split; [|split; [|split; [|split; [|split; [reflexivity|lia]]]]].
  - unfold run_trace. rewrite Htrain. project_line. reflexivity.
  - apply (trained_finite cfg env Htrain Hret).
  - intros Hsmall. apply truediv_2_small. exact Hsmall.
  - eapply Forall_impl; [|exact Hb].
    intros [e b] H. cbn [fst snd].
    split; [apply (updates_block cfg e b H)|].
    destruct H as (ti & inner & Heq & Hin). cbn [fst snd] in Heq. subst b.
    exists (inner ++ epoch_checkpoint_trace cfg e ti ++
            [(127%nat, time_time); (126%nat, print (EndOfEpoch e (EPOCHS cfg)))]).
    split; [reflexivity|].
    rewrite !filter_app.
    rewrite (filter_kind_out is_update_learning_rate 87 111 inner
               ltac:(off_side) Hin).
    rewrite (filter_kind_out is_update_learning_rate 115 123 _
               ltac:(off_side) (epoch_checkpoint_trace_calls cfg e ti)).
    reflexivity.
Qed.

Lemma epoch_blocks_prefix cfg t0 blocks :
  Forall (calls 37 59) t0 ->
  Forall (epoch_block cfg) blocks ->
  epoch_blocks (t0 ++ train_prologue cfg ++ blocks_trace blocks) = blocks.
Proof.
  intros H0 Hb. unfold epoch_blocks.
  rewrite blocks_from_outside by (eapply calls_is_call_all; exact H0).
  rewrite blocks_from_outside
    by (eapply calls_is_call_all; apply train_prologue_calls).
  rewrite <- (app_nil_r (blocks_trace blocks)).
  rewrite (blocks_from_blocks cfg blocks Hb). apply app_nil_r.
Qed.

Lemma images_saved_blocks_last cfg blocks e :
  SAVE_CKPTS cfg = true -> SAVE_IMG_CKPT cfg = true ->
  e mod CKPT_FREQ cfg = 0 ->
  Forall (epoch_block cfg) blocks ->
  In e (map fst blocks) ->
  In (epoch_image cfg e) (images_saved (blocks_trace blocks)).
Proof.
  intros Hs Hi Hmod Hb Hin. apply in_map_iff in Hin.
  destruct Hin as ([e' b] & He & Hin). cbn [fst] in He. subst e'.
  rewrite Forall_forall in Hb. specialize (Hb _ Hin).
  apply images_saved_block in Hb. rewrite Hs, Hi, Hmod in Hb. cbn in Hb.
  assert (Hx : In (epoch_image cfg e) (images_saved b))
    by (rewrite Hb; left; reflexivity).
  unfold images_saved. rewrite flat_map_blocks. apply in_flat_map.
  exists (e, b). split; [exact Hin|].
  apply in_or_app. right. exact Hx.
Qed.

(** C10: in a completed run with TRAIN and SAVE_CKPTS set and EPOCHS at
    least 1, once every epoch of the loop has completed the script calls
    [model.save_network(EPOCHS-1)], with the image
    TEST_DIR/epoch_<EPOCHS-1>.jpg when SAVE_IMG_CKPT is set, whatever
    CKPT_FREQ is; when EPOCHS-1 is a multiple of CKPT_FREQ the loop has
    already saved that epoch and that image, so the last two checkpoints
    saved by the run are both for epoch EPOCHS-1. *)
Theorem final_checkpoint_saved cfg env :
  TRAIN cfg = true -> SAVE_CKPTS cfg = true -> 1 <= EPOCHS cfg ->
  outcome cfg env = Ret tt ->
  exists pre post,
    trace cfg env =
      pre ++
      [(132%nat, print (Literal "Saving the model at the end of training"%string));
       (133%nat, model_save_network (EPOCHS cfg - 1))] ++
      (if SAVE_IMG_CKPT cfg then
         [(136%nat, print (Literal "Saving final epoch test to test folder"%string));
          (137%nat, model_get_current_visuals);
          (139%nat, util_save_visuals (epoch_image cfg (EPOCHS cfg - 1)))]
       else []) ++
      post /\
    epoch_blocks pre = epoch_blocks (trace cfg env) /\
    map fst (epoch_blocks pre) = range (EPOCHS cfg) /\
    Forall (epoch_block cfg) (epoch_blocks pre) /\
    epochs_bound post = [] /\
    checkpoints_saved post = [] /\
    checkpoints_saved pre =
      filter (fun e => e mod CKPT_FREQ cfg =? 0) (range (EPOCHS cfg)) /\
    checkpoints_saved (trace cfg env) =
      filter (fun e => e mod CKPT_FREQ cfg =? 0) (range (EPOCHS cfg)) ++
      [EPOCHS cfg - 1] /\
    ((EPOCHS cfg - 1) mod CKPT_FREQ cfg = 0 ->
     (exists l, checkpoints_saved (trace cfg env) =
                l ++ [EPOCHS cfg - 1; EPOCHS cfg - 1]) /\
     (SAVE_IMG_CKPT cfg = true ->
      In (epoch_image cfg (EPOCHS cfg - 1)) (images_saved pre))).
Proof.
  intros Htrain Hs He Hret. completed cfg env Hret. rewrite Htrain in Hm.
  assert (Hfin' : fin = final_checkpoint_trace cfg (EPOCHS cfg - 1)).
  { destruct Hf as [[E _]|[(_ & _ & _ & E)|[E _]]]; congruence. }
  assert (Hsaved : checkpoints_saved (blocks_trace blocks) =
                   filter (fun e => e mod CKPT_FREQ cfg =? 0) (range (EPOCHS cfg))).
  { rewrite (checkpoints_saved_blocks cfg blocks Hs Hb), Hm. reflexivity. }
  assert (Hall : checkpoints_saved (run_trace cfg env t0 blocks fin DEVICE dir) =
                 filter (fun e => e mod CKPT_FREQ cfg =? 0) (range (EPOCHS cfg)) ++
                 [EPOCHS cfg - 1]).
  { unfold checkpoints_saved. project. rewrite Htrain. f_equal; [exact Hsaved|].
    rewrite Hfin'. unfold final_checkpoint_trace. rewrite Hs.
    destruct (SAVE_IMG_CKPT cfg); reflexivity. }
  exists (t0 ++ train_prologue cfg ++ blocks_trace blocks).
  exists (train_epilogue ++
          (if TEST cfg
           then test_prologue cfg ++ test_loop_trace cfg (testSet env) 0
           else []) ++
          (if EXPORT_MODEL cfg then export_trace cfg DEVICE dir else [])).
  rewrite Hblocks, Hall, (epoch_blocks_prefix cfg t0 blocks H0 Hb).
  split.
  { unfold run_trace. rewrite Htrain, Hfin'. unfold final_checkpoint_trace.
    rewrite Hs, <- !app_assoc. reflexivity. }
  split; [reflexivity|].
  split; [exact Hm|].
  split; [exact Hb|].
  split; [unfold epochs_bound; rewrite !flat_map_app; project; reflexivity|].
  split; [unfold checkpoints_saved; rewrite !flat_map_app; project; reflexivity|].
  split.
  { unfold checkpoints_saved. rewrite !flat_map_app. project. exact Hsaved. }
  split; [reflexivity|].
  intros Hmod. split.
  - rewrite filter_range_last; [|exact He|apply Z.eqb_eq; exact Hmod].
    eexists. rewrite <- app_assoc. reflexivity.
  - intros Hi. unfold images_saved. rewrite !flat_map_app.
    apply in_or_app. right. apply in_or_app. right.
    apply (images_saved_blocks_last cfg blocks); try assumption.
    rewrite Hm. apply In_range. lia.
Qed.

(** *** What the test pass feeds and saves *)

Lemma inputs_fed_test_loop cfg items :
  forall i,
    inputs_fed (test_loop_trace cfg items i) =
    firstn (Z.to_nat (TEST_SAMPLE cfg - i)) items.
Proof.
  unfold inputs_fed.
  induction items as [|d items IH]; intros i.
  - rewrite firstn_nil. reflexivity.
  - cbn [test_loop_trace]. destruct (Z.ltb_spec i (TEST_SAMPLE cfg)).
    + replace (Z.to_nat (TEST_SAMPLE cfg - i))
        with (S (Z.to_nat (TEST_SAMPLE cfg - (i + 1)))) by lia.
      rewrite firstn_cons. simpl. f_equal. apply IH.
    + replace (Z.to_nat (TEST_SAMPLE cfg - i)) with 0%nat by lia. reflexivity.
Qed.

Lemma images_saved_test_loop cfg items :
  forall i,
    images_saved (test_loop_trace cfg items i) =
    map (fun k => test_image cfg (i + Z.of_nat k))
        (seq 0 (Nat.min (Z.to_nat (TEST_SAMPLE cfg - i)) (length items))).
Proof.
  unfold images_saved.
  induction items as [|d items IH]; intros i.
  - rewrite Nat.min_0_r. reflexivity.
  - cbn [test_loop_trace]. destruct (Z.ltb_spec i (TEST_SAMPLE cfg)).
    + replace (Z.to_nat (TEST_SAMPLE cfg - i))
        with (S (Z.to_nat (TEST_SAMPLE cfg - (i + 1)))) by lia.
      cbn [length Nat.min seq map]. rewrite <- seq_shift, map_map.
      simpl. f_equal; [f_equal; lia|].
      etransitivity; [apply IH|]. apply map_ext. intros k. f_equal. lia.
    + replace (Z.to_nat (TEST_SAMPLE cfg - i)) with 0%nat by lia. reflexivity.
Qed.

Lemma requests_next_test_loop cfg items :
  forall i,
    length (filter (fun en => match snd en with loader_next _ => true | _ => false end)
                   (test_loop_trace cfg items i)) =
    S (Nat.min (Z.to_nat (TEST_SAMPLE cfg - i)) (length items)).
Proof.
  induction items as [|d items IH]; intros i.
  - rewrite Nat.min_0_r. reflexivity.
  - cbn [test_loop_trace]. destruct (Z.ltb_spec i (TEST_SAMPLE cfg)).
    + replace (Z.to_nat (TEST_SAMPLE cfg - i))
        with (S (Z.to_nat (TEST_SAMPLE cfg - (i + 1)))) by lia.
      cbn [length Nat.min]. simpl. f_equal. apply IH.
    + replace (Z.to_nat (TEST_SAMPLE cfg - i)) with 0%nat by lia. reflexivity.
Qed.

Lemma test_pass_completed cfg env :
  TEST cfg = true -> outcome cfg env = Ret tt ->
  test_pass (trace cfg env) =
  test_prologue cfg ++ test_loop_trace cfg (testSet env) 0.
Proof.
  intros Hflag Hret. completed cfg env Hret.
  rewrite Htestpass, Hflag. reflexivity.
Qed.

Lemma inputs_fed_test_pass cfg env :
  TEST cfg = true -> outcome cfg env = Ret tt ->
  inputs_fed (test_pass (trace cfg env)) =
  firstn (Z.to_nat (TEST_SAMPLE cfg)) (testSet env).
Proof.
  intros Hflag Hret. rewrite (test_pass_completed cfg env Hflag Hret).
  unfold inputs_fed. rewrite flat_map_app.
  etransitivity; [apply (inputs_fed_test_loop cfg (testSet env) 0)|].
  rewrite Z.sub_0_r. reflexivity.
Qed.


(** C6: in a completed run with TEST set, the test pass opens by building
    its model with is_train=False, setting it up, putting it in eval mode
    and calling [model.load_networks(0)]; this is its only load, and every
    batch it feeds to the model comes after it.  The export, when it runs,
    makes one load as well, of checkpoint 0; training makes none. *)
Theorem test_loads_fixed_checkpoint cfg env :
  TEST cfg = true -> outcome cfg env = Ret tt ->
  (exists rest,
     test_pass (trace cfg env) =
       [(147%nat, ImageFolderLoader "facades/AB" "test" (Some false));
        (148%nat, DataLoader "test" (BATCH_SIZE cfg) false 0);
        (151%nat, Pix2PixModel (CKPT_DIR cfg) (MODEL_NAME cfg) false
                    (truediv_2 (EPOCHS cfg)) (truediv_2 (EPOCHS cfg)));
        (152%nat, model_setup);
        (153%nat, model_eval);
        (154%nat, model_load_networks 0)] ++ rest /\
     checkpoints_loaded rest = [] /\
     inputs_fed rest = inputs_fed (test_pass (trace cfg env))) /\
  checkpoints_loaded (test_pass (trace cfg env)) = [0] /\
  checkpoints_loaded (export_pass (trace cfg env)) =
    (if EXPORT_MODEL cfg then [0] else []) /\
  checkpoints_loaded (trace cfg env) = 0 :: (if EXPORT_MODEL cfg then [0] else []).
Proof.
  intros Hflag Hret. rewrite (test_pass_completed cfg env Hflag Hret).
  completed cfg env Hret.
  assert (Hloop : checkpoints_loaded (test_loop_trace cfg (testSet env) 0) = [])
    by (unfold checkpoints_loaded; project; reflexivity).
  assert (Hexpl : checkpoints_loaded
                    (if EXPORT_MODEL cfg then export_trace cfg DEVICE dir else []) =
                  (if EXPORT_MODEL cfg then [0] else [])).
  { destruct (EXPORT_MODEL cfg); [|reflexivity].
    destruct Hd as [-> | ->]; reflexivity. }
  split; [|split; [|split]].
  - exists ((157%nat, loader_iter "test") :: test_loop_trace cfg (testSet env) 0).
    split; [reflexivity|]. split; [exact Hloop|]. reflexivity.
  - unfold checkpoints_loaded in *. rewrite flat_map_app.
    etransitivity; [apply f_equal; exact Hloop|]. reflexivity.
  - rewrite Hexportpass. exact Hexpl.
  - unfold checkpoints_loaded in *. project. rewrite Hflag.
    destruct (EXPORT_MODEL cfg); [|reflexivity].
    destruct Hd as [-> | ->]; reflexivity.
Qed.

(** C9: in a completed run with TEST set, the test pass feeds the model
    the first TEST_SAMPLE batches of the dataset, or all of them when there
    are fewer, and saves batch i as TEST_DIR/test_<i>.jpg; it saves nothing
    else, so at most TEST_SAMPLE images; and it asks the loader for one
    batch more than it processes, the request at which the loop ends. *)
Theorem test_pass_bounded cfg env :
  TEST cfg = true -> outcome cfg env = Ret tt ->
  inputs_fed (test_pass (trace cfg env)) =
    firstn (Z.to_nat (TEST_SAMPLE cfg)) (testSet env) /\
  images_saved (test_pass (trace cfg env)) =
    map (fun k => test_image cfg (Z.of_nat k))
        (seq 0 (Nat.min (Z.to_nat (TEST_SAMPLE cfg)) (length (testSet env)))) /\
  (length (images_saved (test_pass (trace cfg env))) <= Z.to_nat (TEST_SAMPLE cfg))%nat /\
  length (filter (fun en => match snd en with loader_next _ => true | _ => false end)
                 (test_pass (trace cfg env))) =
    S (Nat.min (Z.to_nat (TEST_SAMPLE cfg)) (length (testSet env))).
Proof.
  intros Hflag Hret.
  split; [apply inputs_fed_test_pass; assumption|].
  rewrite (test_pass_completed cfg env Hflag Hret).
  assert (Himg : images_saved (test_prologue cfg ++ test_loop_trace cfg (testSet env) 0) =
                 map (fun k => test_image cfg (Z.of_nat k))
                   (seq 0 (Nat.min (Z.to_nat (TEST_SAMPLE cfg)) (length (testSet env))))).
  { unfold images_saved. rewrite flat_map_app.
    etransitivity; [apply (images_saved_test_loop cfg (testSet env) 0)|].
    rewrite Z.sub_0_r. reflexivity. }
  rewrite Himg.
  split; [reflexivity|]. split.
  - rewrite length_map, length_seq. apply Nat.le_min_l.
  - rewrite filter_app.
    etransitivity; [apply (requests_next_test_loop cfg (testSet env) 0)|].
    rewrite Z.sub_0_r. reflexivity.
Qed.

(** *** Where the outputs go *)

Ltac located :=
  first
    [ exact I
    | unfold output_location; cbn [snd]; solve [auto 10]
    | unfold output_location; cbn [snd]; eexists; split; [|reflexivity]; reflexivity ].

Lemma main_output_location cfg env : emits (output_location cfg) (main cfg env).
Proof.
  unfold main. apply emits_bind.
  { unfold module_level, ensure_dir. emits_auto located. }
  intros DEVICE. apply emits_bind.
  { apply emits_when. intros Hflag. unfold train_mode. emits_auto located.
    apply emits_train_epochs; [intros; exact I|].
    intros e ti. unfold train_epoch, train_batches, train_step, epoch_checkpoint.
    emits_auto located. }
  intros _. apply emits_bind.
  { apply emits_when. intros Hflag. unfold test_mode, test_step. emits_auto located. }
  intros _. apply emits_when. intros Hflag.
  unfold export_mode, ensure_dir. emits_auto located.
Qed.

Lemma startswith_sep_app m s :
  startswith_sep m = false -> startswith_sep s = false ->
  startswith_sep (m ++ s) = false.
Proof. destruct m; simpl; auto. Qed.

(** C8, as the code has it: for a MODEL_NAME that does not begin with "/",
    the checkpoint directory is checkpoints/<MODEL_NAME>, the log directory
    runs/<MODEL_NAME>, the image directory test/<MODEL_NAME> and the
    exported file exported/<MODEL_NAME>.onnx.  In every run, whatever
    MODEL_NAME is, a directory is made only for a flag that is set, models
    are built on the checkpoint directory, the log writer on the log
    directory, images are saved into the image directory, and a completed
    run exports exactly one model when EXPORT_MODEL is set, none
    otherwise. *)
Theorem outputs_per_run cfg env :
  startswith_sep (MODEL_NAME cfg) = false ->
  (CKPT_DIR cfg = "checkpoints/" ++ MODEL_NAME cfg /\
   LOG_DIR cfg = "runs/" ++ MODEL_NAME cfg /\
   TEST_DIR cfg = "test/" ++ MODEL_NAME cfg /\
   export_path cfg = "exported/" ++ MODEL_NAME cfg ++ ".onnx")%string /\
  Forall (output_location cfg) (trace cfg env) /\
  (forall d, In d (dirs_made (trace cfg env)) ->
     (d = CKPT_DIR cfg /\ SAVE_CKPTS cfg = true) \/
     (d = LOG_DIR cfg /\ WRITE_LOGS cfg = true) \/
     (d = TEST_DIR cfg /\ SAVE_IMG_CKPT cfg = true) \/
     (d = "exported"%string /\ EXPORT_MODEL cfg = true)) /\
  (outcome cfg env = Ret tt ->
   models_exported (trace cfg env) =
   if EXPORT_MODEL cfg then [export_path cfg] else []).
Proof.
  intros Hrel.
  pose proof (main_output_location cfg env 0%nat) as Hloc.
  change (snd (main cfg env 0%nat)) with (trace cfg env) in Hloc.
  split; [|split; [exact Hloc|split]].
  - unfold CKPT_DIR, LOG_DIR, TEST_DIR, export_path, os_path_join.
    rewrite Hrel, (startswith_sep_app _ ".onnx" Hrel eq_refl).
    repeat split; reflexivity.
  - intros d Hin. unfold dirs_made in Hin. apply in_flat_map in Hin.
    destruct Hin as ([l ev] & Hen & Hd).
    rewrite Forall_forall in Hloc. specialize (Hloc _ Hen).
    destruct ev; cbn [snd] in Hd; try contradiction.
    destruct Hd as [<-|[]]. exact Hloc.
  - intros Hret. completed cfg env Hret.
    unfold models_exported. project.
    destruct (EXPORT_MODEL cfg); [|reflexivity].
    destruct Hd as [-> | ->]; reflexivity.
Qed.

(** * Beyond the claims: how a run ends *)

(** ** Outcome triples *)

Lemma post_ret {A} (a : A) (R : A -> Prop) E : R a -> post (ret a) R E.
Proof. intros H n. exact H. Qed.

Lemma post_throw {A} e (R : A -> Prop) (E : Exn -> Prop) : E e -> post (throw e) R E.
Proof. intros H n. exact H. Qed.

Lemma post_note l ev (R : unit -> Prop) E : R tt -> post (note l ev) R E.
Proof. intros H n. exact H. Qed.

Lemma post_call_with {A} env l ev (ans : nat -> A) (R : A -> Prop) E :
  quiet env -> (forall n, R (ans n)) -> post (call_with env l ev ans) R E.
Proof. intros Hq H n. unfold call_with. simpl. rewrite Hq. apply H. Qed.

Lemma post_call env l ev (R : unit -> Prop) E :
  quiet env -> R tt -> post (call env l ev) R E.
Proof. intros Hq H. apply post_call_with; auto. Qed.

Lemma post_bind {A B} (m : M A) (f : A -> M B) (R : B -> Prop) E :
  post m (fun a => post (f a) R E) E -> post (bind m f) R E.
Proof.
  intros H n. unfold bind. specialize (H n).
  destruct (m n) as [[a|e] t]; simpl in *; [|exact H].
  specialize (H (n + length t)%nat). destruct (f a (n + length t)%nat). exact H.
Qed.

Lemma post_conseq {A} (m : M A) (R R' : A -> Prop) (E E' : Exn -> Prop) :
  post m R E -> (forall a, R a -> R' a) -> (forall e, E e -> E' e) -> post m R' E'.
Proof.
  intros H HR HE n. specialize (H n). destruct (fst (m n)); auto.
Qed.

(** Sequencing after a part that cannot fail. *)
Lemma post_bind_all {A B} (m : M A) (f : A -> M B) (R : B -> Prop) E :
  ok m -> (forall a, post (f a) R E) -> post (bind m f) R E.
Proof.
  unfold ok. intros Hm Hf. apply post_bind.
  apply (post_conseq m (fun _ => True) _ (fun _ => False)); auto. contradiction.
Qed.

Lemma post_when (b : bool) m (R : unit -> Prop) E :
  (b = true -> post m R E) -> (b = false -> R tt) -> post (when b m) R E.
Proof. destruct b; simpl; intros H1 H2; [auto|apply post_ret; auto]. Qed.

Lemma post_py_mod a b (R : Z -> Prop) (E : Exn -> Prop) :
  (b <> 0 -> R (a mod b)) -> (b = 0 -> E ZeroDivisionError) -> post (py_mod a b) R E.
Proof.
  intros H1 H2. unfold py_mod. destruct (Z.eqb_spec b 0);
    [apply post_throw|apply post_ret]; auto.
Qed.

Lemma post_py_truediv_check b (R : unit -> Prop) (E : Exn -> Prop) :
  (b <> 0 -> R tt) -> (b = 0 -> E ZeroDivisionError) ->
  (is_finite (int_to_float b) = false -> E OverflowError) ->
  post (py_truediv_check b) R E.
Proof.
  intros H1 H2 H3. unfold py_truediv_check.
  destruct (is_finite (int_to_float b)); [|apply post_throw; auto].
  destruct (Z.eqb_spec b 0); [apply post_throw|apply post_ret]; auto.
Qed.

Lemma post_py_truediv_2 a (R : spec_float -> Prop) (E : Exn -> Prop) :
  (is_finite (truediv_2 a) = true -> R (truediv_2 a)) ->
  (is_finite (truediv_2 a) = false -> E OverflowError) ->
  post (py_truediv_2 a) R E.
Proof.
  intros H1 H2. unfold py_truediv_2.
  destruct (is_finite (truediv_2 a)); [apply post_ret|apply post_throw]; auto.
Qed.

Lemma post_getitem d key (R : Loss -> Prop) (E : Exn -> Prop) :
  (has_key d key -> forall v, R v) ->
  (~ has_key d key -> E (KeyError key)) ->
  post (getitem d key) R E.
Proof.
  unfold has_key. induction d as [|[k v] d IH]; intros H1 H2; simpl.
  - apply post_throw. apply H2. simpl. tauto.
  - destruct (String.eqb_spec k key) as [->|Hne].
    + apply post_ret. apply H1. simpl. auto.
    + apply IH.
      * intros Hin. apply H1. simpl. auto.
      * intros Hn. apply H2. simpl. intros [Heq|Hin]; [congruence|auto].
Qed.

Lemma post_outcome cfg env (R : unit -> Prop) E :
  post (main cfg env) R E ->
  match outcome cfg env with Ret a => R a | Raise e => E e end.
Proof. intros H. exact (H 0%nat). Qed.

(** ** Parts that cannot fail *)

Lemma ok_ret {A} (a : A) : ok (ret a).
Proof. apply post_ret. exact I. Qed.

Lemma ok_note l ev : ok (note l ev).
Proof. apply post_note. exact I. Qed.

Lemma ok_call env l ev : quiet env -> ok (call env l ev).
Proof. intros Hq. apply post_call; auto. Qed.

Lemma ok_call_with {A} env l ev (ans : nat -> A) : quiet env -> ok (call_with env l ev ans).
Proof. intros Hq. apply post_call_with; auto. Qed.

Lemma ok_bind {A B} (m : M A) (f : A -> M B) :
  ok m -> (forall a, ok (f a)) -> ok (bind m f).
Proof. apply post_bind_all. Qed.

Lemma ok_when (b : bool) m : (b = true -> ok m) -> ok (when b m).
Proof. intros H. apply post_when; auto. Qed.

Lemma ok_py_mod a b : b <> 0 -> ok (py_mod a b).
Proof. intros H. apply post_py_mod; auto. Qed.

Lemma ok_py_truediv_check b :
  b <> 0 -> is_finite (int_to_float b) = true -> ok (py_truediv_check b).
Proof. intros H Hf. apply post_py_truediv_check; auto. congruence. Qed.

Lemma ok_py_truediv_2 a : is_finite (truediv_2 a) = true -> ok (py_truediv_2 a).
Proof. intros Hf. apply post_py_truediv_2; auto. congruence. Qed.

Lemma ok_getitem d key : has_key d key -> ok (getitem d key).
Proof. intros H. apply post_getitem; auto. Qed.

Lemma ok_for_enumerate {S} env line phase items
    (body : Z -> Data -> S -> M (Ctl S)) :
  quiet env ->
  (forall i d s, ok (body i d s)) ->
  forall i s, ok (for_enumerate env line phase items i body s).
Proof.
  intros Hq Hbody. induction items as [|d items IH]; intros i s; simpl.
  - apply ok_bind; [apply ok_call; exact Hq|intros _; apply ok_ret].
  - apply ok_bind; [apply ok_call; exact Hq|intros _].
    apply ok_bind; [apply Hbody|intros [s'|s']]; [apply IH|apply ok_ret].
Qed.

Lemma ok_enumerate_loader {S} env line phase items
    (body : Z -> Data -> S -> M (Ctl S)) s :
  quiet env ->
  (forall i d s, ok (body i d s)) ->
  ok (enumerate_loader env line phase items body s).
Proof.
  intros Hq Hbody. unfold enumerate_loader.
  apply ok_bind; [apply ok_call; exact Hq|intros _].
  apply ok_for_enumerate; assumption.
Qed.

Lemma ok_log_losses env losses total_iters :
  quiet env -> ok (log_losses env losses total_iters).
Proof.
  intros Hq. induction losses as [|[name loss] losses IH]; simpl.
  - apply ok_ret.
  - apply ok_bind; [apply ok_call; exact Hq|intros _; exact IH].
Qed.

(** Sequencing after a call keeps what the call answers. *)
Lemma post_bind_call_with {A B} env l ev (ans : nat -> A) (f : A -> M B)
    (R : B -> Prop) E :
  quiet env -> (forall n, post (f (ans n)) R E) ->
  post (bind (call_with env l ev ans) f) R E.
Proof.
  intros Hq H. apply post_bind. apply post_call_with; [exact Hq|exact H].
Qed.

Lemma ok_bind_call_with {A B} env l ev (ans : nat -> A) (f : A -> M B) :
  quiet env -> (forall n, ok (f (ans n))) -> ok (bind (call_with env l ev ans) f).
Proof. apply post_bind_call_with. Qed.

Ltac ok_step Hq :=
  first
    [ match goal with H : false = true |- _ => discriminate H end
    | apply ok_ret
    | apply ok_note
    | apply ok_call; exact Hq
    | apply ok_call_with; exact Hq
    | apply ok_log_losses; exact Hq
    | apply ok_enumerate_loader; [exact Hq|intros ? ? ?]
    | apply ok_py_mod; solve [auto]
    | apply ok_py_truediv_check; solve [auto]
    | apply ok_py_truediv_2; solve [auto]
    | apply ok_getitem; solve [auto 10 with datatypes]
    | apply ok_when; intros ?
    | apply ok_bind_call_with; [exact Hq|intros ?]
    | apply ok_bind; [|intros ?]
    | match goal with
      | |- ok (match ?x with _ => _ end) => destruct x
      | |- ok (let _ := _ in _) => cbv zeta
      end ].

Ltac ok_auto Hq := repeat ok_step Hq.

Lemma ok_module_level cfg env : quiet env -> ok (module_level cfg env).
Proof. intros Hq. unfold module_level, ensure_dir. ok_auto Hq. Qed.

Lemma ok_train_batches cfg env e ti :
  quiet env -> steps_ok cfg env -> ok (train_batches cfg env e ti).
Proof.
  intros Hq (Hp & Hbs & Hbf & Hl & Hk). unfold train_batches, train_step. ok_auto Hq.
Qed.

Lemma ok_train_epoch cfg env e ti :
  quiet env -> steps_ok cfg env ->
  (SAVE_CKPTS cfg = true -> CKPT_FREQ cfg <> 0) ->
  ok (train_epoch cfg env e ti).
Proof.
  intros Hq Hs Hc. unfold train_epoch.
  apply ok_bind; [apply ok_call; exact Hq|intros _].
  apply ok_bind; [apply ok_call; exact Hq|intros _].
  apply ok_bind; [apply ok_when; intros _; apply ok_call; exact Hq|intros _].
  apply ok_bind; [apply ok_train_batches; assumption|intros ti'].
  unfold epoch_checkpoint. ok_auto Hq.
Qed.

Lemma post_train_epochs cfg env :
  (forall e ti, ok (train_epoch cfg env e ti)) ->
  forall epochs epoch ti,
    post (train_epochs cfg env epochs epoch ti)
         (fun st => fst st = last (map Some epochs) epoch) (fun _ => False).
Proof.
  intros Hb. induction epochs as [|e epochs IH]; intros epoch ti; simpl train_epochs.
  - apply post_ret. reflexivity.
  - apply post_bind_all; [apply ok_note|intros _].
    apply post_bind_all; [apply Hb|intros ti'].
    eapply post_conseq; [apply IH| |auto].
    intros st ->. destruct epochs as [|e' epochs']; [reflexivity|].
    cbn [map].
    change (last (Some e' :: map Some epochs') (Some e)
            = last (Some e' :: map Some epochs') epoch).
    apply last_nonempty.
Qed.

Lemma ok_train_mode cfg env :
  quiet env -> is_finite (truediv_2 (EPOCHS cfg)) = true ->
  trainable cfg env -> ok (train_mode cfg env).
Proof.
  intros Hq Hfin (Hs & Hc). unfold train_mode.
  do 6 (apply ok_bind; [solve [ok_auto Hq]|intros ?]).
  apply post_bind. eapply post_conseq;
    [apply post_train_epochs; intros e ti; apply ok_train_epoch; try assumption;
     intros E; apply Hc; exact E| |auto].
  intros st Hst. cbv beta. rewrite Hst. clear Hst st.
  apply ok_bind; [|intros _; ok_auto Hq].
  unfold final_checkpoint. apply ok_when. intros E.
  destruct (Hc E) as [_ He]. rewrite (range_last _ He). simpl load_epoch.
  ok_auto Hq.
Qed.

Lemma ok_test_mode cfg env :
  quiet env -> is_finite (truediv_2 (EPOCHS cfg)) = true -> ok (test_mode cfg env).
Proof. intros Hq Hfin. unfold test_mode, test_step. ok_auto Hq. Qed.

Lemma ok_export_mode cfg env DEVICE :
  quiet env -> is_finite (truediv_2 (EPOCHS cfg)) = true ->
  ok (export_mode cfg env DEVICE).
Proof. intros Hq Hfin. unfold export_mode, ensure_dir. ok_auto Hq. Qed.

(** X1: a run in which no call raises reaches the end of the script,
    provided that [EPOCHS / 2] has a float and that, when TRAIN is set, the
    divisors PRINT_FREQ, BATCH_SIZE, LOG_FREQ (with WRITE_LOGS) and
    CKPT_FREQ (with SAVE_CKPTS) are not zero, BATCH_SIZE has a float, the
    model reports the four losses that are printed, and with SAVE_CKPTS
    there is at least one epoch. *)
Theorem quiet_run_completes cfg env :
  quiet env ->
  is_finite (truediv_2 (EPOCHS cfg)) = true ->
  (TRAIN cfg = true -> trainable cfg env) ->
  outcome cfg env = Ret tt.
Proof.
  intros Hq Hfin Ht.
  assert (H : ok (main cfg env)).
  { unfold main.
    apply ok_bind; [apply ok_module_level; exact Hq|intros DEVICE].
    apply ok_bind; [apply ok_when; intros E; apply ok_train_mode; auto|intros _].
    apply ok_bind; [apply ok_when; intros E; apply ok_test_mode; auto|intros _].
    apply ok_when. intros E. apply ok_export_mode; assumption. }
  apply post_outcome in H. destruct (outcome cfg env) as [[]|e]; [reflexivity|contradiction].
Qed.

(** ** Runs that the script itself ends *)

Lemma post_bind_fails {A B} (m : M A) (f : A -> M B) (R : B -> Prop) E :
  post m (fun _ => False) E -> post (bind m f) R E.
Proof.
  intros H. apply post_bind. eapply post_conseq; [exact H| |auto]. contradiction.
Qed.

Lemma fails_outcome cfg env e0 :
  post (main cfg env) (fun _ => False) (fun e => e = e0) ->
  outcome cfg env = Raise e0.
Proof.
  intros H. apply post_outcome in H.
  destruct (outcome cfg env) as [a|e]; [contradiction|congruence].
Qed.

Lemma train_fails_main cfg env E :
  quiet env -> TRAIN cfg = true ->
  post (train_mode cfg env) (fun _ => False) E ->
  post (main cfg env) (fun _ => False) E.
Proof.
  intros Hq Ht H. unfold main.
  apply post_bind_all; [apply ok_module_level; exact Hq|intros DEVICE].
  apply post_bind_fails. rewrite Ht. exact H.
Qed.

Lemma range_head n : 1 <= n -> exists rest, range n = 0 :: rest.
Proof.
  intros H. unfold range. destruct (Z.to_nat n) as [|k] eqn:E; [lia|].
  simpl. eexists. reflexivity.
Qed.

(** Training fails as soon as its first epoch does. *)
Lemma first_epoch_fails cfg env E :
  quiet env -> is_finite (truediv_2 (EPOCHS cfg)) = true -> 1 <= EPOCHS cfg ->
  post (train_epoch cfg env 0 0) (fun _ => False) E ->
  post (train_mode cfg env) (fun _ => False) E.
Proof.
  intros Hq Hfin He H. unfold train_mode.
  do 6 (apply post_bind_all; [solve [ok_auto Hq]|intros ?]).
  apply post_bind_fails.
  destruct (range_head _ He) as [rest ->]. simpl train_epochs.
  apply post_bind_all; [apply ok_note|intros _].
  apply post_bind_fails. exact H.
Qed.

(** The first epoch fails as soon as its first batch does. *)
Lemma first_step_fails cfg env E d rest :
  quiet env -> trainSet env 0 = d :: rest ->
  post (train_step cfg env 0 0 d) (fun _ => False) E ->
  post (train_epoch cfg env 0 0) (fun _ => False) E.
Proof.
  intros Hq Hset H. unfold train_epoch.
  do 2 (apply post_bind_all; [apply ok_call; exact Hq|intros _]).
  apply post_bind_all;
    [apply ok_when; intros Hz; discriminate Hz|intros _].
  apply post_bind_fails. unfold train_batches, enumerate_loader.
  apply post_bind_all; [apply ok_call; exact Hq|intros _].
  rewrite Hset. simpl for_enumerate.
  apply post_bind_all; [apply ok_call; exact Hq|intros _].
  apply post_bind_fails. apply post_bind_fails. exact H.
Qed.

(** X2: with TRAIN and SAVE_CKPTS set and no epoch to run (EPOCHS <= 0,
    not so low that [EPOCHS / 2] overflows), a run in which no call raises
    ends with NameError: line 133 reads [epoch], which the empty loop
    never bound. *)
Theorem no_epoch_name_error cfg env :
  quiet env -> is_finite (truediv_2 (EPOCHS cfg)) = true ->
  TRAIN cfg = true -> SAVE_CKPTS cfg = true -> EPOCHS cfg <= 0 ->
  outcome cfg env = Raise (NameError "epoch").
Proof.
  intros Hq Hfin Ht Hs He. apply fails_outcome. apply train_fails_main; try assumption.
  unfold train_mode.
  do 6 (apply post_bind_all; [solve [ok_auto Hq]|intros ?]).
  rewrite (range_nonpos _ He). simpl train_epochs.
  apply post_bind. apply post_ret. cbv beta.
  apply post_bind_fails. unfold final_checkpoint. rewrite Hs. simpl.
  apply post_bind_all; [apply ok_call; exact Hq|intros _].
  apply post_bind_fails. apply post_throw. reflexivity.
Qed.

(** X3: with TRAIN and SAVE_CKPTS set, at least one epoch and
    CKPT_FREQ = 0, a run in which no call raises and whose batches go
    through ends with ZeroDivisionError, raised by [epoch % CKPT_FREQ] at
    the end of the first epoch. *)
Theorem zero_checkpoint_frequency cfg env :
  quiet env -> is_finite (truediv_2 (EPOCHS cfg)) = true -> steps_ok cfg env ->
  TRAIN cfg = true -> SAVE_CKPTS cfg = true -> 1 <= EPOCHS cfg ->
  CKPT_FREQ cfg = 0 ->
  outcome cfg env = Raise ZeroDivisionError.
Proof.
  intros Hq Hfin Hok Ht Hs He Hc. apply fails_outcome.
  apply train_fails_main; try assumption.
  apply first_epoch_fails; try assumption.
  unfold train_epoch.
  do 2 (apply post_bind_all; [apply ok_call; exact Hq|intros _]).
  apply post_bind_all;
    [apply ok_when; intros Hz; discriminate Hz|intros _].
  apply post_bind_all; [apply ok_train_batches; assumption|intros ti].
  apply post_bind_fails. unfold epoch_checkpoint. rewrite Hs. simpl.
  apply post_bind_fails. apply post_py_mod; [congruence|reflexivity].
Qed.

(** X4: with TRAIN set, at least one epoch, a first epoch that has a batch
    and PRINT_FREQ = 0, a run in which no call raises ends with
    ZeroDivisionError, raised by [total_iters % PRINT_FREQ] on the first
    batch. *)
Theorem zero_print_frequency cfg env d rest :
  quiet env -> is_finite (truediv_2 (EPOCHS cfg)) = true ->
  TRAIN cfg = true -> 1 <= EPOCHS cfg -> trainSet env 0 = d :: rest ->
  PRINT_FREQ cfg = 0 ->
  outcome cfg env = Raise ZeroDivisionError.
Proof.
  intros Hq Hfin Ht He Hset Hp. apply fails_outcome.
  apply train_fails_main; try assumption.
  apply first_epoch_fails; try assumption.
  apply (first_step_fails cfg env _ d rest); try assumption.
  unfold train_step.
  do 3 (apply post_bind_all; [apply ok_call; exact Hq|intros _]).
  apply post_bind_fails. apply post_py_mod; [congruence|reflexivity].
Qed.

(** X5: when the first batch is one whose losses are printed
    (BATCH_SIZE is a multiple of PRINT_FREQ) and the model does not report
    a loss named G_GAN, a run in which no call raises ends with KeyError
    for that name. *)
Theorem missing_loss_key_error cfg env d rest :
  quiet env -> is_finite (truediv_2 (EPOCHS cfg)) = true ->
  TRAIN cfg = true -> 1 <= EPOCHS cfg -> trainSet env 0 = d :: rest ->
  PRINT_FREQ cfg <> 0 ->
  BATCH_SIZE cfg <> 0 -> is_finite (int_to_float (BATCH_SIZE cfg)) = true ->
  BATCH_SIZE cfg mod PRINT_FREQ cfg = 0 ->
  (forall n, ~ has_key (current_losses env n) "G_GAN") ->
  outcome cfg env = Raise (KeyError "G_GAN").
Proof.
  intros Hq Hfin Ht He Hset Hp Hb Hbf Hmod Hk. apply fails_outcome.
  apply train_fails_main; try assumption.
  apply first_epoch_fails; try assumption.
  apply (first_step_fails cfg env _ d rest); try assumption.
  unfold train_step.
  do 3 (apply post_bind_all; [apply ok_call; exact Hq|intros _]).
  apply post_bind. apply post_py_mod; [intros _|congruence].
  change (0 + BATCH_SIZE cfg) with (BATCH_SIZE cfg). rewrite Hmod.
  apply post_bind_fails. simpl when.
  apply post_bind_call_with; [exact Hq|intros n].
  apply post_bind_all; [apply ok_call; exact Hq|intros _].
  apply post_bind_all; [apply ok_py_truediv_check; assumption|intros _].
  apply post_bind_fails. apply post_getitem; [|reflexivity].
  intros Hin. exfalso. exact (Hk n Hin).
Qed.

End Trainer.

(** * Worked examples

    Concrete runs: batches are numbered, losses are integers. *)

Section Examples.
Local Open Scope string_scope.

Definition demo_losses : list (string * Z) :=
  [("G_GAN", 1); ("G_L1", 2); ("D_real", 3); ("D_fake", 4)].

(** No call raises, no directory exists yet, no GPU; two training batches
    per epoch and three test batches. *)
Definition demo_env : @Env nat Z := {|
  raises := fun _ => false;
  isdir := fun _ _ => false;
  cuda_available := false;
  trainSet := fun _ => [10; 11]%nat;
  testSet := [20; 21; 22]%nat;
  current_losses := fun _ => demo_losses |}.


(** The dataset cannot be loaded: the tenth call of the run raises. *)
Definition failing_env : @Env nat Z := {|
  raises := fun n => Nat.eqb n 9;
  isdir := fun _ _ => false;
  cuda_available := false;
  trainSet := fun _ => [10; 11]%nat;
  testSet := [20; 21; 22]%nat;
  current_losses := fun _ => demo_losses |}.

(** Every flag set; three epochs, a checkpoint every second epoch, two
    test samples. *)
Definition demo : Config := {|
  TRAIN := true; TEST := true; TEST_SAMPLE := 2; WRITE_LOGS := true;
  SAVE_CKPTS := true; SAVE_IMG_CKPT := true; EXPORT_MODEL := true;
  MODEL_NAME := "pix2pix_run_1";
  BATCH_SIZE := 1; EPOCHS := 3;
  PRINT_FREQ := 2; LOG_FREQ := 2; CKPT_FREQ := 2 |}.


(** Training for no epoch at all, without checkpoints. *)
Definition idle : Config := {|
  TRAIN := true; TEST := false; TEST_SAMPLE := 5; WRITE_LOGS := false;
  SAVE_CKPTS := false; SAVE_IMG_CKPT := false; EXPORT_MODEL := false;
  MODEL_NAME := "pix2pix_run_1";
  BATCH_SIZE := 1; EPOCHS := 0;
  PRINT_FREQ := 100; LOG_FREQ := 100; CKPT_FREQ := 2 |}.

(** A model name that is an absolute path. *)
Definition rooted : Config := {|
  TRAIN := false; TEST := false; TEST_SAMPLE := 5; WRITE_LOGS := false;
  SAVE_CKPTS := false; SAVE_IMG_CKPT := false; EXPORT_MODEL := true;
  MODEL_NAME := "/x";
  BATCH_SIZE := 1; EPOCHS := 10;
  PRINT_FREQ := 100; LOG_FREQ := 100; CKPT_FREQ := 2 |}.

End Examples.

(** ** The theorems at work *)

Lemma training_runs_every_epoch_demo :
  TRAIN demo = true /\ outcome demo demo_env = Ret tt /\
  epochs_bound (trace demo demo_env) = [0; 1; 2] /\
  map fst (epoch_blocks (trace demo demo_env)) = [0; 1; 2].
Proof.
  assert (H1 : TRAIN demo = true) by reflexivity.
  assert (H2 : outcome demo demo_env = Ret tt) by (vm_compute; reflexivity).
  destruct (training_runs_every_epoch demo demo_env H1 H2)
    as (E1 & _ & _ & _ & _ & E2 & _).
  split; [exact H1|]. split; [exact H2|]. split; [exact E1|exact E2].
Defined.

Lemma checkpoint_cadence_demo :
  TRAIN demo = true /\ SAVE_CKPTS demo = true /\ outcome demo demo_env = Ret tt /\
  map fst (epoch_blocks (trace demo demo_env)) = [0; 1; 2].
Proof.
  assert (H1 : TRAIN demo = true) by reflexivity.
  assert (H2 : SAVE_CKPTS demo = true) by reflexivity.
  assert (H3 : outcome demo demo_env = Ret tt) by (vm_compute; reflexivity).
  destruct (checkpoint_cadence demo demo_env H1 H2 H3) as (E & _).
  repeat split; assumption.
Defined.

Lemma learning_rate_schedule_demo :
  TRAIN demo = true /\ outcome demo demo_env = Ret tt /\
  length (filter is_update_learning_rate (trace demo demo_env)) = 2%nat.
Proof.
  assert (H1 : TRAIN demo = true) by reflexivity.
  assert (H2 : outcome demo demo_env = Ret tt) by (vm_compute; reflexivity).
  destruct (learning_rate_schedule demo demo_env H1 H2) as (_ & _ & _ & _ & E & _).
  repeat split; assumption.
Defined.

(** The count of C3 as the claim words it, "EPOCHS-1 times", fails for a
    run that trains for no epoch: it makes no call, not -1. *)
Lemma update_count_not_epochs_minus_one :
  ~ (TRAIN idle = true -> outcome idle demo_env = Ret tt ->
     Z.of_nat (length (filter is_update_learning_rate (trace idle demo_env)))
     = EPOCHS idle - 1).
Proof.
  intros H. specialize (H eq_refl eq_refl). vm_compute in H. discriminate H.
Qed.


Lemma test_loads_fixed_checkpoint_demo :
  TEST demo = true /\ outcome demo demo_env = Ret tt /\
  checkpoints_loaded (trace demo demo_env) = [0; 0].
Proof.
  assert (H1 : TEST demo = true) by reflexivity.
  assert (H2 : outcome demo demo_env = Ret tt) by (vm_compute; reflexivity).
  destruct (test_loads_fixed_checkpoint demo demo_env H1 H2) as (_ & _ & _ & E).
  repeat split; assumption.
Defined.

Lemma raising_call_ends_run_demo :
  nth_error (trace demo failing_env) 9
    = Some (68%nat, ImageFolderLoader "facades/AB" "train" None) /\
  raises failing_env 9 = true /\
  10%nat = length (trace demo failing_env) /\
  outcome demo failing_env = Raise (Delegated 9).
Proof.
  assert (H1 : nth_error (trace demo failing_env) 9
               = Some (68%nat, ImageFolderLoader "facades/AB" "train" None))
    by (vm_compute; reflexivity).
  assert (H2 : raises failing_env 9 = true) by reflexivity.
  destruct (raising_call_ends_run demo failing_env 9 _ H1 eq_refl H2) as (E1 & E2).
  repeat split; assumption.
Defined.

Lemma outputs_per_run_demo :
  startswith_sep (MODEL_NAME demo) = false /\
  CKPT_DIR demo = "checkpoints/pix2pix_run_1"%string /\
  export_path demo = "exported/pix2pix_run_1.onnx"%string.
Proof.
  assert (H1 : startswith_sep (MODEL_NAME demo) = false) by reflexivity.
  destruct (outputs_per_run demo demo_env H1) as ((E1 & _ & _ & E2) & _).
  repeat split; assumption.
Defined.

(** The locations of C8 as the claim words them fail for a model name that
    is an absolute path: [os.path.join] drops what comes before it. *)
Lemma absolute_model_name_escapes :
  ~ (CKPT_DIR rooted = ("checkpoints/" ++ MODEL_NAME rooted)%string) /\
  ~ (EXPORT_MODEL rooted = true -> outcome rooted demo_env = Ret tt ->
     models_exported (trace rooted demo_env) =
     [("exported/" ++ MODEL_NAME rooted ++ ".onnx")%string]).
Proof.
  split.
  - intros H. vm_compute in H. discriminate H.
  - intros H. specialize (H eq_refl eq_refl). vm_compute in H. discriminate H.
Qed.

Lemma test_pass_bounded_demo :
  TEST demo = true /\ outcome demo demo_env = Ret tt /\
  inputs_fed (test_pass (trace demo demo_env)) = [20; 21]%nat /\
  images_saved (test_pass (trace demo demo_env)) =
    ["test/pix2pix_run_1/test_0.jpg"; "test/pix2pix_run_1/test_1.jpg"]%string.
Proof.
  assert (H1 : TEST demo = true) by reflexivity.
  assert (H2 : outcome demo demo_env = Ret tt) by (vm_compute; reflexivity).
  destruct (test_pass_bounded demo demo_env H1 H2) as (E1 & E2 & _).
  repeat split; assumption.
Defined.

Lemma final_checkpoint_saved_demo :
  TRAIN demo = true /\ SAVE_CKPTS demo = true /\ 1 <= EPOCHS demo /\
  outcome demo demo_env = Ret tt /\
  checkpoints_saved (trace demo demo_env) = [0; 2; 2].
Proof.
  assert (H1 : TRAIN demo = true) by reflexivity.
  assert (H2 : SAVE_CKPTS demo = true) by reflexivity.
  assert (H3 : 1 <= EPOCHS demo) by (vm_compute; discriminate).
  assert (H4 : outcome demo demo_env = Ret tt) by (vm_compute; reflexivity).
  destruct (final_checkpoint_saved demo demo_env H1 H2 H3 H4)
    as (pre & post & _ & _ & _ & _ & _ & _ & _ & E & _).
  repeat split; assumption.
Defined.
